(** * audit_tool.py: a shallow embedding and its verified properties

    The program observes three resources of one machine: a directory tree
    (class [FileAuditHandler]), the process table ([monitor_processes]) and
    the kernel's TCP/UDP socket tables ([monitor_network], [hex_to_ip]).
    Every observer only appends messages to its logger, so an observer is
    modelled by the list of messages it logs, together with the way it
    ends (normally, or by an exception that nothing catches).

    Python [str] values are modelled by [string]; a character stands for
    the code point of the same number, so the model covers the code points
    below 256.  Module [Unicode] has the address decoder once more, over
    strings of any code points.  The library functions the program calls ([int], [str.split],
    [str.strip], [os.path.basename], [struct.pack], [socket.inet_ntoa], ...)
    are modelled next to the function that calls them. *)

From Stdlib Require Import ZArith Ascii String List Lia Bool.
From Stdlib Require Import Numbers.DecimalString.
From stdpp Require Import gmap strings list.

Import ListNotations.
Local Open Scope string_scope.
Local Open Scope Z_scope.

(** ** Exceptions and results *)

Module Py.

(** The exception classes the program can meet.  [StructError] is
    [struct.error], which derives from [Exception] directly: it is not a
    [ValueError]. *)
Inductive exn : Type :=
  | ValueError
  | IndexError
  | StructError
  | FileNotFoundError
  | OtherError (name : string).

Definition exn_eqb (a b : exn) : bool :=
  match a, b with
  | ValueError, ValueError => true
  | IndexError, IndexError => true
  | StructError, StructError => true
  | FileNotFoundError, FileNotFoundError => true
  | OtherError x, OtherError y => String.eqb x y
  | _, _ => false
  end.

(** How an expression ends. *)
Inductive result (A : Type) : Type :=
  | Returned (a : A)
  | Raised (e : exn).
Arguments Returned {A} a.
Arguments Raised {A} e.

Definition bind {A B} (r : result A) (k : A -> result B) : result B :=
  match r with
  | Returned a => k a
  | Raised e => Raised e
  end.

(** [try: body except cls: handler] *)
Definition try_except {A} (body : result A) (cls : exn) (handler : result A)
  : result A :=
  match body with
  | Returned a => Returned a
  | Raised e => if exn_eqb e cls then handler else Raised e
  end.

End Py.
Import Py.

#[global] Instance result_ret : MRet result := @Returned.
#[global] Instance result_bind : MBind result := fun A B k r => bind r k.

(** ** Characters *)

Definition code (c : ascii) : Z := Z.of_N (N_of_ascii c).

Definition in_range (lo hi : Z) (c : ascii) : bool :=
  (lo <=? code c) && (code c <=? hi).

(** A hexadecimal digit: [0-9], [a-f] or [A-F]. *)
Definition is_hex_digit (c : ascii) : bool :=
  in_range 48 57 c || in_range 97 102 c || in_range 65 70 c.

(** CPython's [Py_ISSPACE]: the ASCII white space. *)
Definition Py_ISSPACE (c : ascii) : bool :=
  in_range 9 13 c || (code c =? 32).

(** CPython's [Py_UNICODE_ISSPACE] on the code points below 256. *)
Definition Py_UNICODE_ISSPACE (c : ascii) : bool :=
  in_range 9 13 c || in_range 28 32 c || (code c =? 133) || (code c =? 160).

(** CPython's [_PyLong_DigitValue]: 37 marks a character that is no digit
    in any base. *)
Definition PyLong_DigitValue (c : ascii) : Z :=
  if in_range 48 57 c then code c - 48
  else if in_range 97 122 c then code c - 87
  else if in_range 65 90 c then code c - 55
  else 37.

(** ** [int(s, 16)] *)

(** [_PyUnicode_TransformDecimalAndSpaceToASCII]: code points from 127 on
    become a space when they are white space, and [?] otherwise (no code
    point of 127..255 is a decimal digit). *)
Definition transform_char (c : ascii) : ascii :=
  if code c <? 127 then c
  else if Py_UNICODE_ISSPACE c then " "%char
  else "?"%char.

Fixpoint transform_space_to_ascii (s : string) : string :=
  match s with
  | EmptyString => EmptyString
  | String c s' => String (transform_char c) (transform_space_to_ascii s')
  end.

Fixpoint skip_space (s : string) : string :=
  match s with
  | String c s' => if Py_ISSPACE c then skip_space s' else s
  | EmptyString => EmptyString
  end.

(** The digit loop of [long_from_binary_base] for base 16: digits and
    single underscores between them.  [prev_us] says that the previous
    character was an underscore; the result is the value, the number of
    digits and the unread rest, or [None] for a syntax error. *)
Fixpoint long_from_binary_base (prev_us : bool) (digits : nat) (acc : Z)
    (s : string) : option (Z * nat * string) :=
  match s with
  | String c s' =>
      if Ascii.eqb c "_" then
        if prev_us then None else long_from_binary_base true digits acc s'
      else if PyLong_DigitValue c <? 16 then
        long_from_binary_base false (S digits) (acc * 16 + PyLong_DigitValue c) s'
      else if prev_us then None else Some (acc, digits, s)
  | EmptyString => if prev_us then None else Some (acc, digits, s)
  end.

(** The sign: [+] or [-], optional. *)
Definition read_sign (s : string) : Z * string :=
  match s with
  | String c s' =>
      if Ascii.eqb c "+" then (1, s')
      else if Ascii.eqb c "-" then (-1, s')
      else (1, s)
  | EmptyString => (1, s)
  end.

(** The prefix [0x] or [0X], optional in base 16, and the one underscore
    allowed after it. *)
Definition read_prefix (s : string) : string :=
  match s with
  | String c0 (String c1 s') =>
      if Ascii.eqb c0 "0" && (Ascii.eqb c1 "x" || Ascii.eqb c1 "X") then
        match s' with
        | String c2 s'' => if Ascii.eqb c2 "_" then s'' else s'
        | EmptyString => s'
        end
      else s
  | _ => s
  end.

Definition starts_with_underscore (s : string) : bool :=
  match s with
  | String c _ => Ascii.eqb c "_"
  | EmptyString => false
  end.

(** [PyLong_FromString(s, &end, 16)], with the test of
    [PyLong_FromUnicodeObject] that the whole string was read. *)
Definition PyLong_FromString (s : string) : option Z :=
  let (sign, s1) := read_sign (skip_space s) in
  let s2 := read_prefix s1 in
  if starts_with_underscore s2 then None
  else
    match long_from_binary_base false 0 0 s2 with
    | Some (z, digits, rest) =>
        match digits, skip_space rest with
        | S _, EmptyString => Some (sign * z)
        | _, _ => None
        end
    | None => None
    end.

(** [int(s, 16)]: a [ValueError] when [s] is no base-16 literal. *)
Definition int16 (s : string) : result Z :=
  match PyLong_FromString (transform_space_to_ascii s) with
  | Some z => Returned z
  | None => Raised ValueError
  end.

(** ** [struct.pack] and [socket.inet_ntoa] *)

(** [struct.pack("<L", n)]: the four bytes of [n], least significant
    first; [struct.error] when [n] is not an unsigned 32-bit value. *)
Definition struct_pack_lt_L (n : Z) : result (list Z) :=
  if (0 <=? n) && (n <=? 4294967295) then
    Returned [Z.land n 255;
              Z.land (Z.shiftr n 8) 255;
              Z.land (Z.shiftr n 16) 255;
              Z.land (Z.shiftr n 24) 255]
  else Raised StructError.

(** [str(n)] for a natural number. *)
Definition decimal (n : Z) : string :=
  NilZero.string_of_uint (N.to_uint (Z.to_N n)).

Definition dotted_quad (a b c d : Z) : string :=
  decimal a ++ "." ++ decimal b ++ "." ++ decimal c ++ "." ++ decimal d.

(** [socket.inet_ntoa(packed)]: [OSError] unless [packed] has 4 bytes. *)
Definition inet_ntoa (packed : list Z) : result string :=
  match packed with
  | [a; b; c; d] => Returned (dotted_quad a b c d)
  | _ => Raised (OtherError "OSError")
  end.

(** ** [hex_to_ip] (lines 85-89) *)

Definition invalid_ip : string := "Invalid IP".

Definition hex_to_ip (hex_ip : string) : result string :=
  try_except
    (n ← int16 hex_ip;
     packed ← struct_pack_lt_L n;
     inet_ntoa packed)
    ValueError
    (Returned invalid_ip).

(** ** Python string methods *)

(** [needle in hay] *)
Fixpoint contains (needle hay : string) : bool :=
  String.prefix needle hay ||
  match hay with
  | String _ hay' => contains needle hay'
  | EmptyString => false
  end.

(** [s.split(sep)[0]] for a separator that is not empty: the part of [s]
    before the first occurrence of [sep], all of [s] when there is none. *)
Fixpoint split_head (sep s : string) : string :=
  if String.prefix sep s then EmptyString
  else
    match s with
    | String c s' => String c (split_head sep s')
    | EmptyString => EmptyString
    end.

(** [s.split(sep)] for a one-character separator: every occurrence
    splits, empty pieces are kept. *)
Fixpoint split_char (sep : ascii) (s : string) : list string :=
  match s with
  | EmptyString => [EmptyString]
  | String c s' =>
      if Ascii.eqb c sep then EmptyString :: split_char sep s'
      else
        match split_char sep s' with
        | piece :: pieces => String c piece :: pieces
        | [] => [String c EmptyString]
        end
  end.

Definition flush_word (word : string) : list string :=
  match word with
  | EmptyString => []
  | _ => [word]
  end.

(** [s.split()]: the maximal runs of characters that are not white space;
    [word] is the run being read. *)
Fixpoint split_whitespace_from (word s : string) : list string :=
  match s with
  | EmptyString => flush_word word
  | String c s' =>
      if Py_UNICODE_ISSPACE c then (flush_word word ++ split_whitespace_from EmptyString s')%list
      else split_whitespace_from (word ++ String c EmptyString) s'
  end.

Definition split_whitespace (s : string) : list string :=
  split_whitespace_from EmptyString s.

Fixpoint lstrip (P : ascii -> bool) (s : string) : string :=
  match s with
  | String c s' => if P c then lstrip P s' else s
  | EmptyString => EmptyString
  end.

Fixpoint rstrip (P : ascii -> bool) (s : string) : string :=
  match s with
  | String c s' =>
      match rstrip P s' with
      | EmptyString => if P c then EmptyString else String c EmptyString
      | rest => String c rest
      end
  | EmptyString => EmptyString
  end.

(** [s.strip()] *)
Definition strip (s : string) : string :=
  rstrip Py_UNICODE_ISSPACE (lstrip Py_UNICODE_ISSPACE s).

(** [s.replace(old, new)] for one-character [old] and [new]. *)
Fixpoint replace_char (old new : ascii) (s : string) : string :=
  match s with
  | String c s' => String (if Ascii.eqb c old then new else c) (replace_char old new s')
  | EmptyString => EmptyString
  end.

Fixpoint all_chars (P : ascii -> bool) (s : string) : bool :=
  match s with
  | String c s' => P c && all_chars P s'
  | EmptyString => true
  end.

(** The characters with the Unicode property [Digit] below 256: [0-9] and
    the superscripts 2, 3 and 1. *)
Definition Py_UNICODE_ISDIGIT (c : ascii) : bool :=
  in_range 48 57 c || (code c =? 178) || (code c =? 179) || (code c =? 185).

(** [s.isdigit()]: at least one character, all of them digits. *)
Definition isdigit (s : string) : bool :=
  match s with
  | EmptyString => false
  | _ => all_chars Py_UNICODE_ISDIGIT s
  end.

(** [xs[i]] for [i >= 0]: an [IndexError] out of range. *)
Definition index {A} (xs : list A) (i : nat) : result A :=
  match nth_error xs i with
  | Some x => Returned x
  | None => Raised IndexError
  end.

(** [a, b = xs]: a [ValueError] unless [xs] has two items. *)
Definition unpack2 {A} (xs : list A) : result (A * A) :=
  match xs with
  | [a; b] => Returned (a, b)
  | _ => Raised ValueError
  end.

(** ** [os.path] (posixpath) *)

Definition is_slash (c : ascii) : bool := Ascii.eqb c "/".

Fixpoint has_slash (p : string) : bool :=
  match p with
  | String c p' => is_slash c || has_slash p'
  | EmptyString => false
  end.

(** [(p[:i], p[i:])] for [i = p.rfind('/') + 1]. *)
Fixpoint rsplit_slash (p : string) : string * string :=
  match p with
  | EmptyString => (EmptyString, EmptyString)
  | String c p' =>
      if is_slash c || has_slash p' then
        let (head, tail) := rsplit_slash p' in (String c head, tail)
      else (EmptyString, p)
  end.

(** [os.path.basename(p)] *)
Definition basename (p : string) : string := snd (rsplit_slash p).

(** [os.path.dirname(p)]: the head, without its trailing slashes unless
    it consists of slashes only. *)
Definition dirname (p : string) : string :=
  let head := fst (rsplit_slash p) in
  match head with
  | EmptyString => head
  | _ => if all_chars is_slash head then head else rstrip is_slash head
  end.

(** What the program asks the file system. *)
Record FileSystem : Type := {
  fs_exists : string -> bool;
  fs_isdir : string -> bool
}.

(** [os.path.exists(p)]: no file has the empty path. *)
Definition os_path_exists (fs : FileSystem) (p : string) : bool :=
  match p with
  | EmptyString => false
  | _ => fs_exists fs p
  end.

(** [os.path.isdir(p)] *)
Definition os_path_isdir (fs : FileSystem) (p : string) : bool :=
  match p with
  | EmptyString => false
  | _ => fs_isdir fs p
  end.

(** ** Log messages

    Every [logger.info(f"...")] of the program is one constructor; its
    arguments are the values the f-string interpolates, in their order. *)
Inductive message : Type :=
  | TempFileCreated (src_path original_path : string)  (* line 25 *)
  | DirectoryCreated (src_path : string)               (* line 27 *)
  | FileCreated (src_path : string)                    (* line 29 *)
  | DirectoryDeleted (src_path : string)               (* line 36 *)
  | FileDeleted (src_path : string)                    (* line 38 *)
  | FileRenamed (src_path dest_path : string)          (* line 48 *)
  | FileMoved (src_path dest_path : string)            (* line 50 *)
  | ProcessStartedNoCommand (pid : string)             (* line 73 *)
  | ProcessStarted (pid cmd : string)                  (* line 75 *)
  | ProcessTerminated (pid : string)                   (* line 80 *)
  | TcpConnection (ip : string) (port : Z)             (* line 104 *)
  | UdpConnection (ip : string) (port : Z)             (* line 109 *)
  | MonitoringStarted (path : string).                 (* line 141 *)

(** A computation that logs: the messages it wrote, in order, and how it
    ended.  After an exception nothing more is logged. *)
Module Logged.

Definition logged (A : Type) : Type := (list message * result A)%type.

Definition ret {A} (a : A) : logged A := ([], Returned a).

Definition bind {A B} (m : logged A) (k : A -> logged B) : logged B :=
  match m with
  | (msgs, Returned a) => let (msgs', r) := k a in ((msgs ++ msgs')%list, r)
  | (msgs, Raised e) => (msgs, Raised e)
  end.

(** [logger.info(msg)] *)
Definition info (msg : message) : logged unit := ([msg], Returned tt).

(** An expression that logs nothing. *)
Definition lift {A} (r : result A) : logged A := ([], r).

(** [try: body except cls: handler] *)
Definition try_catch {A} (body : logged A) (cls : exn) (handler : logged A)
  : logged A :=
  match body with
  | (msgs, Raised e) =>
      if exn_eqb e cls then let (msgs', r) := handler in ((msgs ++ msgs')%list, r)
      else body
  | _ => body
  end.

(** [for x in xs: body(x)] *)
Fixpoint for_each {X} (xs : list X) (body : X -> logged unit) : logged unit :=
  match xs with
  | [] => ret tt
  | x :: xs' => bind (body x) (fun _ => for_each xs' body)
  end.

Definition messages {A} (m : logged A) : list message := fst m.
Definition outcome {A} (m : logged A) : result A := snd m.

(** What the turns of a loop over [xs] log when each of them runs. *)
Definition logs_of {X} (body : X -> logged unit) (xs : list X) : list message :=
  concat (map (fun x => messages (body x)) xs).

End Logged.
Import Logged.

Notation "'do' x <- m ; k" := (Logged.bind m (fun x => k))
  (at level 10, x name, m at level 100, k at level 200,
   format "'[v' 'do'  x  <-  m ; '/' k ']'").

(** ** The file system watcher: [FileAuditHandler] (lines 12-56) *)

(** The temp-artifact marker. *)
Definition marker : string := ".goutputstream".

(** A watchdog event; [dest_path] is only read for a move. *)
Record FileSystemEvent : Type := {
  src_path : string;
  dest_path : string;
  is_directory : bool
}.

(** The three dictionaries of the handler ([__init__], lines 16-18). *)
Record FileAuditHandler : Type := {
  recently_created_files : gmap string Z;
  last_modified_time : gmap string Z;
  temporary_file_map : gmap string string
}.

Definition init : FileAuditHandler :=
  {| recently_created_files := ∅;
     last_modified_time := ∅;
     temporary_file_map := ∅ |}.

(** [self.temporary_file_map[k] = v] *)
Definition set_temporary_file (self : FileAuditHandler) (k v : string)
  : FileAuditHandler :=
  {| recently_created_files := recently_created_files self;
     last_modified_time := last_modified_time self;
     temporary_file_map := <[k := v]> (temporary_file_map self) |}.

(** [find_original_file] (lines 52-56) *)
Definition find_original_file (fs : FileSystem) (temp_path : string)
  : option string :=
  let base_name := split_head marker temp_path in
  if os_path_exists fs base_name then Some base_name else None.

(** The truth value of [original_path] in [if original_path:]. *)
Definition truthy (v : option string) : bool :=
  match v with
  | None => false
  | Some EmptyString => false
  | Some _ => true
  end.

(** [on_created] (lines 20-29): the handler after the call and the
    messages logged. *)
Definition on_created (fs : FileSystem) (self : FileAuditHandler)
    (event : FileSystemEvent) : FileAuditHandler * list message :=
  if contains marker (basename (src_path event)) then
    let original_path := find_original_file fs (src_path event) in
    match original_path with
    | Some original =>
        if truthy original_path then
          (set_temporary_file self (src_path event) original,
           [TempFileCreated (src_path event) original])
        else (self, [])
    | None => (self, [])
    end
  else if is_directory event then (self, [DirectoryCreated (src_path event)])
  else (self, [FileCreated (src_path event)]).

(** [on_deleted] (lines 31-38) *)
Definition on_deleted (self : FileAuditHandler) (event : FileSystemEvent)
  : FileAuditHandler * list message :=
  if contains marker (basename (src_path event)) then (self, [])
  else if is_directory event then (self, [DirectoryDeleted (src_path event)])
  else (self, [FileDeleted (src_path event)]).

(** [on_moved] (lines 40-50) *)
Definition on_moved (self : FileAuditHandler) (event : FileSystemEvent)
  : FileAuditHandler * list message :=
  if contains marker (basename (src_path event)) then (self, [])
  else
    let src_dir := dirname (src_path event) in
    let dest_dir := dirname (dest_path event) in
    if String.eqb src_dir dest_dir then
      (self, [FileRenamed (src_path event) (dest_path event)])
    else (self, [FileMoved (src_path event) (dest_path event)]).

(** ** The process monitor: [monitor_processes] (lines 59-83) *)

(** The order in which a [for] loop visits a Python set is not fixed by
    the language: any enumeration of the set without repetition. *)
Class SetIteration : Type := {
  set_iter : gset string -> list string;
  set_iter_perm : forall X : gset string, set_iter X ≡ₚ elements X
}.

(** What one cycle sees of [/proc]: the names [os.listdir] returns, and
    for a name what opening and reading its [cmdline] gives. *)
Record ProcTable : Type := {
  listdir : list string;
  read_cmdline : string -> result string
}.

(** Lines 65-66 *)
Definition new_pids (current_pids known_pids : gset string) : gset string :=
  current_pids ∖ known_pids.

Definition terminated_pids (current_pids known_pids : gset string) : gset string :=
  known_pids ∖ current_pids.

(** The snapshot differ of the two lines together. *)
Definition diff (previous current : gset string) : gset string * gset string :=
  (new_pids current previous, terminated_pids current previous).

(** Line 63 *)
Definition current_pids (proc : ProcTable) : gset string :=
  list_to_set (filter (fun pid => Is_true (isdigit pid)) (listdir proc)).

(** The body of the first loop (lines 69-77). *)
Definition report_new_pid (proc : ProcTable) (pid : string) : logged unit :=
  try_catch
    (do content <- lift (read_cmdline proc pid);
     let cmd := strip (replace_char "000" " " content) in
     match cmd with
     | EmptyString => info (ProcessStartedNoCommand pid)
     | _ => info (ProcessStarted pid cmd)
     end)
    FileNotFoundError
    (ret tt).

(** One turn of the [while True] loop (lines 63-82): the messages logged
    and the next value of [known_pids]. *)
Definition monitor_processes_cycle `{SetIteration} (proc : ProcTable)
    (known_pids : gset string) : logged (gset string) :=
  let current := current_pids proc in
  do _ <- for_each (set_iter (new_pids current known_pids)) (report_new_pid proc);
  do _ <- for_each (set_iter (terminated_pids current known_pids))
            (fun pid => info (ProcessTerminated pid));
  ret current.

(** The loop over the successive states of [/proc], one per turn. *)
Fixpoint monitor_processes_from `{SetIteration} (known_pids : gset string)
    (procs : list ProcTable) : logged (gset string) :=
  match procs with
  | [] => ret known_pids
  | proc :: procs' =>
      do known <- monitor_processes_cycle proc known_pids;
      monitor_processes_from known procs'
  end.

(** [monitor_processes]: [known_pids] starts empty (line 60). *)
Definition monitor_processes `{SetIteration} (procs : list ProcTable)
  : logged (gset string) :=
  monitor_processes_from ∅ procs.

(** ** The network monitor: [monitor_network] (lines 92-111) *)

Inductive protocol : Type := TCP | UDP.

Definition connection (proto : protocol) (ip : string) (port : Z) : message :=
  match proto with
  | TCP => TcpConnection ip port
  | UDP => UdpConnection ip port
  end.

(** [read_connections] (lines 93-95): the lines of the table without the
    first one. *)
Definition read_connections (file_lines : list string) : list string :=
  drop 1 file_lines.

(** The body of either loop (lines 102-104 and 107-109). *)
Definition report_connection (proto : protocol) (conn : string) : logged unit :=
  let parts := split_whitespace conn in
  do endpoint <- lift (index parts 1);
  do pair <- lift (unpack2 (split_char ":" endpoint));
  let (local_ip, local_port) := (pair : string * string) in
  do ip <- lift (hex_to_ip local_ip);
  do port <- lift (int16 local_port);
  info (connection proto ip port).

(** One turn of the [while True] loop (lines 98-109), from the lines of
    [/proc/net/tcp] and [/proc/net/udp]. *)
Definition monitor_network_cycle (tcp_file udp_file : list string) : logged unit :=
  let tcp_connections := read_connections tcp_file in
  let udp_connections := read_connections udp_file in
  do _ <- for_each tcp_connections (report_connection TCP);
  for_each udp_connections (report_connection UDP).

(** ** [main] (lines 126-161) *)

(** What [main] does to the outside, in order.  [Uncaught] is the end by
    an exception that nothing catches: the interpreter prints the
    traceback and exits with status 1. *)
Inductive action : Type :=
  | PrintUsage                                  (* line 128 *)
  | PrintPathError (path : string)              (* line 134 *)
  | SysExit (status : Z)                        (* lines 129, 135 *)
  | SetupLogger (log_file name : string)        (* lines 137-139 *)
  | LogInfo (name : string) (msg : message)     (* line 141 *)
  | StartProcessMonitor                         (* line 144 *)
  | StartNetworkMonitor                         (* line 147 *)
  | StartObserver (path : string)               (* lines 150-155 *)
  | PrintStarted (path : string)                (* line 156 *)
  | JoinObserver                                (* line 157 *)
  | Uncaught (e : exn).

(** The calls of the set-up that the machine can refuse, each of which
    then raises: [logging.FileHandler(log_file)] in [setup_logger] (line
    116) opens the log file at once; [threading.Thread(...).start()]
    (lines 144 and 147), by the name of the target; and the observer of
    lines 150-155 ([Observer()], [schedule], [start]), by its path. *)
Class Host : Type := {
  open_log_file : string -> result unit;
  start_thread : string -> result unit;
  start_observer : string -> result unit
}.

(** A step that can raise: its action and what follows when it returns,
    the end of [main] by the exception when it raises. *)
Definition attempt (step : result unit) (done : action) (next : list action)
  : list action :=
  match step with
  | Returned _ => done :: next
  | Raised e => [Uncaught e]
  end.

(** [main], up to the point where it waits for the observer. *)
Definition main `{Host} (fs : FileSystem) (argv : list string) : list action :=
  if (length argv <? 2)%nat then [PrintUsage; SysExit 1]
  else
    match nth_error argv 1 with
    | None => [PrintUsage; SysExit 1]
    | Some path =>
        if negb (os_path_exists fs path) || negb (os_path_isdir fs path) then
          [PrintPathError path; SysExit 1]
        else
          attempt (open_log_file "file_system_log.txt")
            (SetupLogger "file_system_log.txt" "FileSystem")
         (attempt (open_log_file "process_log.txt")
            (SetupLogger "process_log.txt" "Process")
         (attempt (open_log_file "network_log.txt")
            (SetupLogger "network_log.txt" "Network")
         (LogInfo "FileSystem" (MonitoringStarted path) ::
          attempt (start_thread "monitor_processes") StartProcessMonitor
         (attempt (start_thread "monitor_network") StartNetworkMonitor
         (attempt (start_observer path) (StartObserver path)
            [PrintStarted path; JoinObserver])))))
    end.

(** The actions that start one of the three observers. *)
Definition starts_observer (a : action) : bool :=
  match a with
  | StartProcessMonitor | StartNetworkMonitor | StartObserver _ => true
  | _ => false
  end.

(** The exit status, when [main] ends by [sys.exit] or by an exception
    that nothing catches. *)
Definition exit_status (trace : list action) : option Z :=
  match last trace with
  | Some (SysExit status) => Some status
  | Some (Uncaught _) => Some 1
  | _ => None
  end.

(** A machine that refuses nothing. *)
#[global] Instance willing_host : Host :=
  {| open_log_file := fun _ => Returned tt;
     start_thread := fun _ => Returned tt;
     start_observer := fun _ => Returned tt |}.

(** One iteration order: the order of [elements]. *)
#[global] Instance elements_iteration : SetIteration :=
  {| set_iter := elements;
     set_iter_perm := fun X => reflexivity (elements X) |}.

(** ** Definitions on the side of the specification *)

(** The value of a hexadecimal digit. *)
Definition hex_digit_value (c : ascii) : Z :=
  if in_range 48 57 c then code c - 48
  else if in_range 97 102 c then code c - 87
  else if in_range 65 70 c then code c - 55
  else 0.

(** The byte written by the two hexadecimal digits number [2 * i] and
    [2 * i + 1] of [s], counted from the left. *)
Definition hex_byte (s : string) (i : nat) : Z :=
  match String.get (2 * i) s, String.get (2 * i + 1) s with
  | Some hi, Some lo => 16 * hex_digit_value hi + hex_digit_value lo
  | _, _ => 0
  end.

(** A string read as a hexadecimal numeral, most significant digit
    first. *)
Fixpoint hex_value_from (acc : Z) (s : string) : Z :=
  match s with
  | String c s' => hex_value_from (acc * 16 + hex_digit_value c) s'
  | EmptyString => acc
  end.

Definition hex_value (s : string) : Z := hex_value_from 0 s.

Definition upper_hex_digit (v : Z) : ascii :=
  match String.get (Z.to_nat v) "0123456789ABCDEF" with
  | Some c => c
  | None => "0"%char
  end.

(** The kernel's [%08X] of a 32-bit word. *)
Definition percent_08X (word : Z) : string :=
  String (upper_hex_digit (word / 268435456 mod 16))
  (String (upper_hex_digit (word / 16777216 mod 16))
  (String (upper_hex_digit (word / 1048576 mod 16))
  (String (upper_hex_digit (word / 65536 mod 16))
  (String (upper_hex_digit (word / 4096 mod 16))
  (String (upper_hex_digit (word / 256 mod 16))
  (String (upper_hex_digit (word / 16 mod 16))
  (String (upper_hex_digit (word mod 16)) EmptyString))))))).

(** The address [a.b.c.d] as [/proc/net/tcp] shows it on a little-endian
    machine: the four bytes [a], [b], [c], [d] lie in memory in this order,
    the machine reads them as the word [a + 2^8 b + 2^16 c + 2^24 d], and
    the kernel prints the word with [%08X]. *)
Definition kernel_encode (a b c d : Z) : string :=
  percent_08X (a + 256 * b + 65536 * c + 16777216 * d).

Definition is_byte (b : Z) : Prop := 0 <= b < 256.

(** A well-formed address: eight hexadecimal digits. *)
Definition well_formed_address (s : string) : Prop :=
  String.length s = 8%nat /\ all_chars is_hex_digit s = true.

(** A malformed address, in the words of the specification: a character
    that is no hexadecimal digit, or the wrong length. *)
Definition malformed_address (s : string) : Prop :=
  all_chars is_hex_digit s = false \/ String.length s <> 8%nat.

(** The characters that a base-16 literal of [int] can contain at all. *)
Definition literal_char (c : ascii) : bool :=
  is_hex_digit c || Py_UNICODE_ISSPACE c ||
  Ascii.eqb c "+" || Ascii.eqb c "-" || Ascii.eqb c "_" ||
  Ascii.eqb c "x" || Ascii.eqb c "X".

(** The characters [PyLong_FromString] can read in base 16. *)
Definition readable (c : ascii) : bool :=
  is_hex_digit c || Py_ISSPACE c ||
  Ascii.eqb c "+" || Ascii.eqb c "-" || Ascii.eqb c "_" ||
  Ascii.eqb c "x" || Ascii.eqb c "X".

(** The messages that name process [pid]. *)
Definition about (pid : string) (msg : message) : bool :=
  match msg with
  | ProcessStartedNoCommand p | ProcessStarted p _ | ProcessTerminated p =>
      String.eqb p pid
  | _ => false
  end.

Definition messages_about (pid : string) (msgs : list message) : list message :=
  List.filter (about pid) msgs.

(** The start message for a process whose [cmdline] holds [content]. *)
Definition start_message (pid content : string) : message :=
  match strip (replace_char "000" " " content) with
  | EmptyString => ProcessStartedNoCommand pid
  | cmd => ProcessStarted pid cmd
  end.

(** The only exception a read of [cmdline] raises for a PID of [pids] is
    the one of a process that is gone. *)
Definition only_vanished (proc : ProcTable) (pids : gset string) : Prop :=
  forall pid e, pid ∈ pids -> read_cmdline proc pid = Raised e -> e = FileNotFoundError.

(** The field [parts[1]] of a line of a connection table exists and does
    not split at [:] into exactly two pieces. *)
Definition endpoint_does_not_split (conn : string) : Prop :=
  exists endpoint,
    nth_error (split_whitespace conn) 1 = Some endpoint /\
    length (split_char ":" endpoint) <> 2%nat.

(** ** The user name of [setup_logger] (line 119) *)

(** [a or b] on values that are [None] or a string. *)
Definition py_or (a b : option string) : option string :=
  if truthy a then a else b.

(** [os.getenv("LOGNAME") or os.getenv("USER") or "unknown_user"], from
    the environment [os.getenv] reads. *)
Definition username (env : gmap string string) : option string :=
  py_or (py_or (env !! "LOGNAME") (env !! "USER")) (Some "unknown_user").

(** ** The notifications of the observer

    watchdog calls the method of the handler that belongs to the kind of
    the event; the class overrides three of them, and the methods of the
    base class it inherits for the other kinds do nothing. *)
Inductive notification : Type :=
  | Created (event : FileSystemEvent)
  | Deleted (event : FileSystemEvent)
  | Moved (event : FileSystemEvent)
  | NotOverridden (event : FileSystemEvent).

Definition dispatch (fs : FileSystem) (self : FileAuditHandler)
    (n : notification) : FileAuditHandler * list message :=
  match n with
  | Created event => on_created fs self event
  | Deleted event => on_deleted self event
  | Moved event => on_moved self event
  | NotOverridden _ => (self, [])
  end.

(** The handler over a sequence of notifications, each with the file
    system as it is when the notification is handled. *)
Fixpoint handle_all (self : FileAuditHandler)
    (ns : list (FileSystem * notification)) : FileAuditHandler * list message :=
  match ns with
  | [] => (self, [])
  | (fs, n) :: ns' =>
      let (self', msgs) := dispatch fs self n in
      let (self'', msgs') := handle_all self' ns' in
      (self'', (msgs ++ msgs')%list)
  end.

(** ** More definitions on the side of the specification *)

Fixpoint last_char (s : string) : option ascii :=
  match s with
  | EmptyString => None
  | String c EmptyString => Some c
  | String _ s' => last_char s'
  end.

Definition first_char (s : string) : option ascii :=
  match s with
  | EmptyString => None
  | String c _ => Some c
  end.

(** A directory path written without a slash at its end. *)
Definition no_trailing_slash (d : string) : Prop :=
  exists c, last_char d = Some c /\ is_slash c = false.

Definition not_space (c : ascii) : bool := negb (Py_UNICODE_ISSPACE c).
Definition not_nul (c : ascii) : bool := negb (Ascii.eqb c "000").
Definition not_colon (c : ascii) : bool := negb (Ascii.eqb c ":").

(** A word: at least one character, none of them white space. *)
Definition is_word (w : string) : Prop :=
  w <> EmptyString /\ all_chars not_space w = true.

(** The end of a line after a field: nothing, or white space first. *)
Definition field_end (t : string) : Prop :=
  match first_char t with
  | None => True
  | Some c => Py_UNICODE_ISSPACE c = true
  end.

(** A line of a connection table as the kernel writes it: white space, the
    entry number, white space, the local endpoint [addr:port], then the
    rest of the line. *)
Definition table_line (lead slot gap addr port rest : string) : string :=
  lead ++ slot ++ gap ++ (addr ++ ":" ++ port) ++ rest.

(** A port: one to four hexadecimal digits. *)
Definition well_formed_port (s : string) : Prop :=
  (1 <= String.length s <= 4)%nat /\ all_chars is_hex_digit s = true.

(** A line that [report_connection] reports: its second field is an
    endpoint [addr:port] of a well-formed address and port. *)
Definition reportable (conn : string) : Prop :=
  exists addr port,
    nth_error (split_whitespace conn) 1 = Some (addr ++ ":" ++ port) /\
    well_formed_address addr /\ well_formed_port port.

(** The links of the handler are well formed: a link leads from a path
    whose base name contains the marker to the part of this path before
    its first marker, which is not empty. *)
Definition links_well_formed (self : FileAuditHandler) : Prop :=
  forall temp original,
    temporary_file_map self !! temp = Some original ->
    original = split_head marker temp /\
    original <> EmptyString /\
    contains marker (basename temp) = true /\
    exists rest, temp = original ++ marker ++ rest.

(** All PIDs of a set are strings of digits. *)
Definition all_digits (pids : gset string) : Prop :=
  forall pid, pid ∈ pids -> isdigit pid = true.

(** ** [hex_to_ip] on strings of any code points

    [int] reads a [str] of any code points: before the digits are read,
    a code point from 127 on is replaced by a space when it is white
    space in Unicode, by its ASCII digit when it is a decimal digit of
    some script, and by [?] otherwise, where the string is cut off. *)
Module Unicode.

(** The two tables of the Unicode database that [int] consults:
    [Py_UNICODE_ISSPACE], and [Py_UNICODE_TODECIMAL] with the value of a
    decimal digit, 0 to 9, or [None] where C has -1. *)
Record UnicodeData : Type := {
  isspace : N -> bool;
  todecimal : N -> option N
}.

(** [_PyUnicode_TransformDecimalAndSpaceToASCII] *)
Fixpoint transform_decimal_and_space_to_ascii (ucd : UnicodeData)
    (s : list N) : string :=
  match s with
  | [] => EmptyString
  | ch :: s' =>
      if (ch <? 127)%N then
        String (ascii_of_N ch) (transform_decimal_and_space_to_ascii ucd s')
      else if isspace ucd ch then
        String " " (transform_decimal_and_space_to_ascii ucd s')
      else
        match todecimal ucd ch with
        | Some decimal =>
            String (ascii_of_N (48 + decimal))
                   (transform_decimal_and_space_to_ascii ucd s')
        | None => String "?" EmptyString
        end
  end.

(** [int(s, 16)] *)
Definition int16 (ucd : UnicodeData) (s : list N) : result Z :=
  match PyLong_FromString (transform_decimal_and_space_to_ascii ucd s) with
  | Some z => Returned z
  | None => Raised ValueError
  end.

(** [hex_to_ip] (lines 85-89) *)
Definition hex_to_ip (ucd : UnicodeData) (hex_ip : list N) : result string :=
  try_except
    (n ← int16 ucd hex_ip;
     packed ← struct_pack_lt_L n;
     inet_ntoa packed)
    ValueError
    (Returned invalid_ip).

End Unicode.

(** The code points of a string of the first model. *)
Fixpoint code_points (s : string) : list N :=
  match s with
  | EmptyString => []
  | String c s' => N_of_ascii c :: code_points s'
  end.

(** The characters that [int] leaves as they are. *)
Definition below_127 (c : ascii) : bool := code c <? 127.

(** A code point that no base-16 literal of [int] can contain: below 127
    a character that is no hexadecimal digit, no ASCII white space and
    none of [+ - _ x X]; from 127 on a code point that is neither white
    space nor a decimal digit in Unicode. *)
Definition cannot_be_read (ucd : Unicode.UnicodeData) (ch : N) : bool :=
  if (ch <? 127)%N then negb (readable (ascii_of_N ch))
  else
    negb (Unicode.isspace ucd ch) &&
    match Unicode.todecimal ucd ch with
    | Some _ => false
    | None => true
    end.

Definition between (lo hi ch : N) : bool := ((lo <=? ch) && (ch <=? hi))%N.

(** An excerpt of the Unicode database, for examples: the white space,
    and the decimal digits of five scripts (ASCII, Arabic-Indic, Extended
    Arabic-Indic, Devanagari, fullwidth). *)
Definition ucd_excerpt : Unicode.UnicodeData :=
  {| Unicode.isspace := fun ch =>
       between 9 13 ch || between 28 32 ch || (ch =? 133)%N || (ch =? 160)%N ||
       (ch =? 5760)%N || between 8192 8202 ch || (ch =? 8232)%N ||
       (ch =? 8233)%N || (ch =? 8239)%N || (ch =? 8287)%N || (ch =? 12288)%N;
     Unicode.todecimal := fun ch =>
       if between 48 57 ch then Some (ch - 48)%N
       else if between 1632 1641 ch then Some (ch - 1632)%N
       else if between 1776 1785 ch then Some (ch - 1776)%N
       else if between 2406 2415 ch then Some (ch - 2406)%N
       else if between 65296 65305 ch then Some (ch - 65296)%N
       else None |}.





(** * Properties *)

(** ** Examples *)

Example hex_to_ip_loopback : hex_to_ip "0100007F" = Returned "127.0.0.1".
Proof. reflexivity. Qed.

Example hex_to_ip_lower_case : hex_to_ip "0100a8c0" = Returned "192.168.0.1".
Proof. reflexivity. Qed.

Example hex_to_ip_not_hex : hex_to_ip "0100007G" = Returned "Invalid IP".
Proof. reflexivity. Qed.

Example hex_to_ip_empty : hex_to_ip "" = Returned "Invalid IP".
Proof. reflexivity. Qed.

Example hex_to_ip_nine_digits : hex_to_ip "100000000" = Raised StructError.
Proof. reflexivity. Qed.

Example hex_to_ip_negative : hex_to_ip "-1" = Raised StructError.
Proof. reflexivity. Qed.

Example hex_to_ip_literal_syntax : hex_to_ip " 0x7f_00 " = Returned "0.127.0.0".
Proof. reflexivity. Qed.

Example kernel_encode_loopback : kernel_encode 127 0 0 1 = "0100007F".
Proof. reflexivity. Qed.

Example dirname_examples :
  (dirname "a/b/c.txt", dirname "/x", dirname "//x", dirname "a//b", dirname "x")
  = ("a/b", "/", "//", "a", "").
Proof. reflexivity. Qed.

Example basename_examples :
  (basename "a/b/c.txt", basename "a/", basename "x") = ("c.txt", "", "x").
Proof. reflexivity. Qed.

Example split_examples :
  split_whitespace "   0: 0100007F:0035 00000000:0000 0A " =
    ["0:"; "0100007F:0035"; "00000000:0000"; "0A"] /\
  split_char ":" "0100007F:0035" = ["0100007F"; "0035"] /\
  split_char ":" "a::b" = ["a"; ""; "b"] /\
  split_char ":" "" = [""].
Proof. repeat split; reflexivity. Qed.

(** ** Characters, one at a time *)

Ltac by_cases_on_char c :=
  destruct c as [[] [] [] [] [] [] [] []]; vm_compute; intuition congruence.

Lemma hex_digit_is_digit c :
  is_hex_digit c = true ->
  Ascii.eqb c "_" = false /\ (PyLong_DigitValue c <? 16) = true /\
  PyLong_DigitValue c = hex_digit_value c /\ 0 <= hex_digit_value c < 16.
Proof. by_cases_on_char c. Qed.

Lemma hex_digit_plain c :
  is_hex_digit c = true ->
  transform_char c = c /\ Py_ISSPACE c = false /\
  Ascii.eqb c "+" = false /\ Ascii.eqb c "-" = false /\
  Ascii.eqb c "x" = false /\ Ascii.eqb c "X" = false.
Proof. by_cases_on_char c. Qed.

(** ** [int(s, 16)] on strings of hexadecimal digits *)

Lemma transform_hex_digits s :
  all_chars is_hex_digit s = true -> transform_space_to_ascii s = s.
Proof.
  induction s as [|c s IH]; simpl; [reflexivity|].
  intros [Hc Hs]%andb_prop.
  destruct (hex_digit_plain c Hc) as (-> & _). now rewrite IH.
Qed.

Lemma digit_loop_hex_digits s : forall digits acc,
  all_chars is_hex_digit s = true ->
  long_from_binary_base false digits acc s
  = Some (hex_value_from acc s, (digits + String.length s)%nat, EmptyString).
Proof.
  induction s as [|c s IH]; intros digits acc; simpl.
  - intros _. now rewrite Nat.add_0_r.
  - intros [Hc Hs]%andb_prop.
    destruct (hex_digit_is_digit c Hc) as (-> & -> & -> & _).
    rewrite IH by assumption. now rewrite Nat.add_succ_r.
Qed.

Lemma PyLong_FromString_hex_digits s :
  s <> EmptyString -> all_chars is_hex_digit s = true ->
  PyLong_FromString s = Some (hex_value s).
Proof.
  intros Hne Hall. destruct s as [|c0 s]; [congruence|].
  pose proof Hall as Hall'. simpl in Hall'.
  apply andb_prop in Hall' as [H0 Hs].
  destruct (hex_digit_plain c0 H0) as (_ & Hsp & Hplus & Hminus & _).
  destruct (hex_digit_is_digit c0 H0) as (Hus & _).
  unfold PyLong_FromString.
  assert (Hskip : skip_space (String c0 s) = String c0 s) by (simpl; now rewrite Hsp).
  rewrite Hskip. unfold read_sign. rewrite Hplus, Hminus.
  assert (Hpre : read_prefix (String c0 s) = String c0 s).
  { destruct s as [|c1 s]; [reflexivity|]. simpl in Hs.
    apply andb_prop in Hs as [H1 _].
    destruct (hex_digit_plain c1 H1) as (_ & _ & _ & _ & Hx & HX).
    unfold read_prefix. rewrite Hx, HX. now rewrite andb_false_r. }
  rewrite Hpre. unfold starts_with_underscore. rewrite Hus.
  rewrite digit_loop_hex_digits by assumption.
  cbn [String.length Nat.add hex_value hex_value_from skip_space]. unfold hex_value. cbn [hex_value_from]. f_equal. lia.
Qed.

Lemma int16_hex_digits s :
  s <> EmptyString -> all_chars is_hex_digit s = true ->
  int16 s = Returned (hex_value s).
Proof.
  intros Hne Hall. unfold int16.
  rewrite transform_hex_digits by assumption.
  now rewrite PyLong_FromString_hex_digits.
Qed.

(** ** The bytes of a 32-bit word *)

Lemma land_255 n : Z.land n 255 = n mod 256.
Proof. change 255 with (Z.ones 8). now rewrite Z.land_ones by lia. Qed.

Lemma pack_bytes n :
  0 <= n <= 4294967295 ->
  struct_pack_lt_L n
  = Returned [n mod 256; n / 256 mod 256; n / 65536 mod 256; n / 16777216 mod 256].
Proof.
  intros Hn. unfold struct_pack_lt_L.
  replace ((0 <=? n) && (n <=? 4294967295)) with true
    by (symmetry; apply andb_true_intro; split; lia).
  rewrite !land_255, !Z.shiftr_div_pow2 by lia. reflexivity.
Qed.

Lemma eight_digits_bytes (v1 v2 v3 v4 v5 v6 v7 v8 : Z) :
  0 <= v1 < 16 -> 0 <= v2 < 16 -> 0 <= v3 < 16 -> 0 <= v4 < 16 ->
  0 <= v5 < 16 -> 0 <= v6 < 16 -> 0 <= v7 < 16 -> 0 <= v8 < 16 ->
  let n := (((((((0 * 16 + v1) * 16 + v2) * 16 + v3) * 16 + v4) * 16 + v5)
              * 16 + v6) * 16 + v7) * 16 + v8 in
  0 <= n <= 4294967295 /\
  n mod 256 = 16 * v7 + v8 /\ n / 256 mod 256 = 16 * v5 + v6 /\
  n / 65536 mod 256 = 16 * v3 + v4 /\ n / 16777216 mod 256 = 16 * v1 + v2.
Proof.
  intros. subst n. split; [lia|].
  repeat split; Z.div_mod_to_equations; lia.
Qed.

Lemma upper_hex_digit_value v :
  0 <= v < 16 ->
  is_hex_digit (upper_hex_digit v) = true /\
  hex_digit_value (upper_hex_digit v) = v.
Proof.
  intros Hv.
  assert (Hcases : v = 0 \/ v = 1 \/ v = 2 \/ v = 3 \/ v = 4 \/ v = 5 \/ v = 6 \/
                   v = 7 \/ v = 8 \/ v = 9 \/ v = 10 \/ v = 11 \/ v = 12 \/
                   v = 13 \/ v = 14 \/ v = 15) by lia.
  repeat (destruct Hcases as [-> | Hcases]; [split; reflexivity|]).
  subst v. split; reflexivity.
Qed.

Lemma hex_to_ip_eight_digits s :
  well_formed_address s ->
  hex_to_ip s
  = Returned (dotted_quad (hex_byte s 3) (hex_byte s 2) (hex_byte s 1) (hex_byte s 0)).
Proof.
  intros [Hlen Hall].
  destruct s as [|c1 [|c2 [|c3 [|c4 [|c5 [|c6 [|c7 [|c8 [|c9 s]]]]]]]]];
    try discriminate Hlen.
  unfold hex_to_ip. rewrite int16_hex_digits by (assumption || discriminate).
  cbn [all_chars] in Hall.
  repeat (apply andb_prop in Hall as [?Hc Hall]).
  repeat match goal with
         | H : is_hex_digit ?c = true |- _ =>
             apply hex_digit_is_digit in H; destruct H as (_ & _ & _ & ?Hv)
         end.
  unfold hex_value. cbn [hex_value_from].
  unfold hex_byte. cbn [String.get Nat.mul Nat.add].
  destruct (eight_digits_bytes
              (hex_digit_value c1) (hex_digit_value c2) (hex_digit_value c3)
              (hex_digit_value c4) (hex_digit_value c5) (hex_digit_value c6)
              (hex_digit_value c7) (hex_digit_value c8))
    as (Hrange & Hb0 & Hb1 & Hb2 & Hb3); try assumption.
  cbn [mbind result_bind Py.bind].
  rewrite pack_bytes by exact Hrange.
  cbn [mbind result_bind Py.bind inet_ntoa try_except]. rewrite Hb0, Hb1, Hb2, Hb3. reflexivity.
Qed.

Lemma kernel_encode_well_formed a b c d :
  well_formed_address (kernel_encode a b c d).
Proof.
  split; [reflexivity|].
  unfold kernel_encode, percent_08X. cbn [all_chars].
  repeat (apply andb_true_intro; split);
    try reflexivity; apply upper_hex_digit_value; apply Z.mod_pos_bound; lia.
Qed.

Lemma kernel_encode_bytes a b c d :
  is_byte a -> is_byte b -> is_byte c -> is_byte d ->
  hex_byte (kernel_encode a b c d) 3 = a /\
  hex_byte (kernel_encode a b c d) 2 = b /\
  hex_byte (kernel_encode a b c d) 1 = c /\
  hex_byte (kernel_encode a b c d) 0 = d.
Proof.
  unfold is_byte. intros Ha Hb Hc Hd.
  unfold kernel_encode, percent_08X, hex_byte.
  cbn [String.get Nat.mul Nat.add].
  set (w := a + 256 * b + 65536 * c + 16777216 * d).
  rewrite !(fun v H => proj2 (upper_hex_digit_value v H))
    by (apply Z.mod_pos_bound; lia).
  subst w. repeat split; Z.div_mod_to_equations; lia.
Qed.

Lemma hex_to_ip_round_trip a b c d :
  is_byte a -> is_byte b -> is_byte c -> is_byte d ->
  hex_to_ip (kernel_encode a b c d) = Returned (dotted_quad a b c d).
Proof.
  intros Ha Hb Hc Hd.
  rewrite hex_to_ip_eight_digits by apply kernel_encode_well_formed.
  destruct (kernel_encode_bytes a b c d Ha Hb Hc Hd) as (-> & -> & -> & ->).
  reflexivity.
Qed.

(** C2.  Decoding is the inverse of the kernel's little-endian encoding:
    for every well-formed address string (eight hexadecimal digits)
    [hex_to_ip] returns the dotted quad whose four numbers are the four
    bytes of the string in reversed order, i.e. the bytes of the 32-bit
    value from the least significant one; so the kernel's encoding of
    [a.b.c.d] decodes to [a.b.c.d], and ["0100007F"] to ["127.0.0.1"]. *)
Theorem hex_to_ip_little_endian :
  (forall s, well_formed_address s ->
     hex_to_ip s
     = Returned (dotted_quad (hex_byte s 3) (hex_byte s 2) (hex_byte s 1) (hex_byte s 0)) /\
     hex_to_ip s
     = Returned (dotted_quad (hex_value s mod 256) (hex_value s / 256 mod 256)
                   (hex_value s / 65536 mod 256) (hex_value s / 16777216 mod 256))) /\
  (forall a b c d, is_byte a -> is_byte b -> is_byte c -> is_byte d ->
     hex_to_ip (kernel_encode a b c d) = Returned (dotted_quad a b c d)) /\
  kernel_encode 127 0 0 1 = "0100007F" /\
  hex_to_ip "0100007F" = Returned "127.0.0.1".
Proof.
  split; [|split; [exact hex_to_ip_round_trip | split; reflexivity]].
  intros s Hs. split; [now apply hex_to_ip_eight_digits|].
  destruct Hs as [Hlen Hall].
  destruct s as [|c1 [|c2 [|c3 [|c4 [|c5 [|c6 [|c7 [|c8 [|c9 s]]]]]]]]];
    try discriminate Hlen.
  unfold hex_to_ip. rewrite int16_hex_digits by (assumption || discriminate).
  cbn [all_chars] in Hall.
  repeat (apply andb_prop in Hall as [?Hc Hall]).
  repeat match goal with
         | H : is_hex_digit ?c = true |- _ =>
             apply hex_digit_is_digit in H; destruct H as (_ & _ & _ & ?Hv)
         end.
  destruct (eight_digits_bytes
              (hex_digit_value c1) (hex_digit_value c2) (hex_digit_value c3)
              (hex_digit_value c4) (hex_digit_value c5) (hex_digit_value c6)
              (hex_digit_value c7) (hex_digit_value c8))
    as (Hrange & _); try assumption.
  unfold hex_value. cbn [hex_value_from mbind result_bind Py.bind].
  rewrite pack_bytes by exact Hrange. reflexivity.
Qed.

Lemma hex_to_ip_little_endian_witness :
  well_formed_address "0100A8C0" /\
  hex_to_ip "0100A8C0" = Returned (dotted_quad 192 168 0 1) /\
  hex_to_ip (kernel_encode 10 0 2 15) = Returned "10.0.2.15".
Proof.
  assert (Hwf : well_formed_address "0100A8C0") by (split; reflexivity).
  split; [exact Hwf|]. split.
  - exact (proj1 (proj1 hex_to_ip_little_endian "0100A8C0" Hwf)).
  - apply (proj1 (proj2 hex_to_ip_little_endian) 10 0 2 15);
      unfold is_byte; lia.
Defined.

(** ** What [int(s, 16)] accepts *)

Lemma readable_space c : Py_ISSPACE c = true -> readable c = true.
Proof. by_cases_on_char c. Qed.

Lemma readable_digit c : (PyLong_DigitValue c <? 16) = true -> readable c = true.
Proof. by_cases_on_char c. Qed.

Lemma readable_eqb c (k : ascii) :
  readable k = true -> Ascii.eqb c k = true -> readable c = true.
Proof. intros Hk Heq. apply Ascii.eqb_eq in Heq. now subst. Qed.

Lemma readable_transform c :
  readable (transform_char c) = true -> literal_char c = true.
Proof. by_cases_on_char c. Qed.

Lemma skip_space_readable t :
  all_chars readable (skip_space t) = true -> all_chars readable t = true.
Proof.
  induction t as [|c t IH]; simpl; [trivial|].
  destruct (Py_ISSPACE c) eqn:Hc; [|trivial].
  intros H. rewrite (readable_space c Hc). now apply IH.
Qed.

Lemma skip_space_all_read t :
  skip_space t = EmptyString -> all_chars readable t = true.
Proof.
  intros H. apply skip_space_readable. now rewrite H.
Qed.

Lemma read_sign_readable t :
  all_chars readable (snd (read_sign t)) = true -> all_chars readable t = true.
Proof.
  destruct t as [|c t]; [trivial|]. unfold read_sign.
  destruct (Ascii.eqb c "+") eqn:Hp;
    [|destruct (Ascii.eqb c "-") eqn:Hm]; simpl; trivial;
    intros ->; rewrite andb_true_r;
    eapply readable_eqb; try eassumption; reflexivity.
Qed.

Lemma read_prefix_readable t :
  all_chars readable (read_prefix t) = true -> all_chars readable t = true.
Proof.
  destruct t as [|c0 [|c1 t]]; try trivial. unfold read_prefix.
  destruct (Ascii.eqb c0 "0") eqn:H0; [|trivial].
  destruct (Ascii.eqb c1 "x" || Ascii.eqb c1 "X") eqn:H1; [|trivial].
  cbn [andb]. intros H. cbn [all_chars].
  assert (R0 : readable c0 = true) by (eapply readable_eqb; [|exact H0]; reflexivity).
  assert (R1 : readable c1 = true).
  { apply orb_prop in H1 as [H1|H1];
      (eapply readable_eqb; [|exact H1]; reflexivity). }
  rewrite R0, R1. cbn [andb].
  destruct t as [|c2 t]; [reflexivity|].
  destruct (Ascii.eqb c2 "_") eqn:H2; [|exact H].
  cbn [all_chars]. rewrite H.
  now rewrite (readable_eqb c2 "_" eq_refl H2).
Qed.

Lemma digit_loop_readable t : forall prev_us digits acc z d rest,
  long_from_binary_base prev_us digits acc t = Some (z, d, rest) ->
  all_chars readable rest = true -> all_chars readable t = true.
Proof.
  induction t as [|c t IH]; intros prev_us digits acc z d rest; cbn [long_from_binary_base].
  - destruct prev_us; [discriminate|]. now intros [= _ _ <-].
  - destruct (Ascii.eqb c "_") eqn:Hus.
    + destruct prev_us; [discriminate|]. intros Hloop Hrest. cbn [all_chars].
      rewrite (readable_eqb c "_" eq_refl Hus). eapply IH; eassumption.
    + destruct (PyLong_DigitValue c <? 16) eqn:Hd.
      * intros Hloop Hrest. cbn [all_chars].
        rewrite (readable_digit c Hd). eapply IH; eassumption.
      * destruct prev_us; [discriminate|]. now intros [= _ _ <-].
Qed.

Lemma PyLong_FromString_readable t z :
  PyLong_FromString t = Some z -> all_chars readable t = true.
Proof.
  unfold PyLong_FromString. intros H.
  apply skip_space_readable. apply read_sign_readable.
  destruct (read_sign (skip_space t)) as [sign s1]. cbn [snd].
  apply read_prefix_readable.
  destruct (starts_with_underscore (read_prefix s1)); [discriminate|].
  destruct (long_from_binary_base false 0 0 (read_prefix s1))
    as [[[v d] rest]|] eqn:Hloop; [|discriminate].
  destruct d; [discriminate|].
  destruct (skip_space rest) eqn:Hrest; [|discriminate].
  eapply digit_loop_readable; [exact Hloop|]. now apply skip_space_all_read.
Qed.

Lemma transform_readable s :
  all_chars readable (transform_space_to_ascii s) = true ->
  all_chars literal_char s = true.
Proof.
  induction s as [|c s IH]; cbn [transform_space_to_ascii all_chars]; [trivial|].
  intros [Hc Hs]%andb_prop.
  rewrite (readable_transform c Hc). now apply IH.
Qed.

Lemma int16_rejects s :
  all_chars literal_char s = false -> int16 s = Raised ValueError.
Proof.
  intros Hbad. unfold int16.
  destruct (PyLong_FromString (transform_space_to_ascii s)) as [z|] eqn:Hparse;
    [|reflexivity].
  apply PyLong_FromString_readable, transform_readable in Hparse. congruence.
Qed.

(** A dotted quad never reads [Invalid IP]: it starts with a digit. *)
Lemma dotted_quad_not_sentinel a b c d : dotted_quad a b c d <> invalid_ip.
Proof.
  unfold dotted_quad, decimal, invalid_ip.
  destruct (N.to_uint (Z.to_N a)); cbn; discriminate.
Qed.

Lemma hex_value_short s :
  (String.length s <= 8)%nat -> all_chars is_hex_digit s = true ->
  0 <= hex_value s <= 4294967295.
Proof.
  intros Hlen Hall.
  destruct s as [|c1 [|c2 [|c3 [|c4 [|c5 [|c6 [|c7 [|c8 [|c9 s]]]]]]]]];
    cbn [String.length] in Hlen; try lia;
    cbn [all_chars] in Hall;
    repeat (apply andb_prop in Hall as [?Hc Hall]);
    repeat match goal with
           | H : is_hex_digit ?c = true |- _ =>
               apply hex_digit_is_digit in H; destruct H as (_ & _ & _ & ?Hv)
           end;
    unfold hex_value; cbn [hex_value_from]; lia.
Qed.

(** ** Strings of any code points *)

Lemma below_127_code c : (N_of_ascii c <? 127)%N = below_127 c.
Proof. destruct c as [[] [] [] [] [] [] [] []]; reflexivity. Qed.

Lemma below_127_unchanged c : below_127 c = true -> transform_char c = c.
Proof. unfold below_127, transform_char. now intros ->. Qed.

Lemma hex_digit_below_127 c : is_hex_digit c = true -> below_127 c = true.
Proof. by_cases_on_char c. Qed.

Lemma transform_code_points ucd s :
  all_chars below_127 s = true ->
  Unicode.transform_decimal_and_space_to_ascii ucd (code_points s) = s.
Proof.
  induction s as [|c s IH]; [reflexivity|]. cbn [all_chars code_points].
  intros [Hc Hs]%andb_prop.
  cbn [Unicode.transform_decimal_and_space_to_ascii].
  now rewrite below_127_code, Hc, ascii_N_embedding, (IH Hs).
Qed.

Lemma transform_below_127 s :
  all_chars below_127 s = true -> transform_space_to_ascii s = s.
Proof.
  induction s as [|c s IH]; [reflexivity|]. cbn [all_chars transform_space_to_ascii].
  intros [Hc Hs]%andb_prop. now rewrite (below_127_unchanged c Hc), (IH Hs).
Qed.

(** On strings of characters below 127 the two models are one. *)
Lemma hex_to_ip_code_points ucd s :
  all_chars below_127 s = true ->
  Unicode.hex_to_ip ucd (code_points s) = hex_to_ip s.
Proof.
  intros Hs. unfold Unicode.hex_to_ip, hex_to_ip, Unicode.int16, int16.
  now rewrite (transform_code_points ucd s Hs), (transform_below_127 s Hs).
Qed.

Lemma cannot_be_read_transform ucd s :
  existsb (cannot_be_read ucd) s = true ->
  all_chars readable (Unicode.transform_decimal_and_space_to_ascii ucd s) = false.
Proof.
  induction s as [|ch s IH]; [discriminate|].
  cbn [existsb Unicode.transform_decimal_and_space_to_ascii]. unfold cannot_be_read at 1.
  destruct (ch <? 127)%N.
  - cbn [all_chars]. destruct (readable (ascii_of_N ch)); [|reflexivity].
    cbn [negb orb andb]. exact IH.
  - destruct (Unicode.isspace ucd ch).
    + cbn [negb andb orb all_chars]. intros H. now rewrite (IH H), andb_false_r.
    + destruct (Unicode.todecimal ucd ch) as [decimal|].
      * cbn [negb andb orb all_chars]. intros H. now rewrite (IH H), andb_false_r.
      * reflexivity.
Qed.

Lemma unicode_int16_rejects ucd s :
  existsb (cannot_be_read ucd) s = true -> Unicode.int16 ucd s = Raised ValueError.
Proof.
  intros Hbad. unfold Unicode.int16.
  destruct (PyLong_FromString (Unicode.transform_decimal_and_space_to_ascii ucd s))
    as [z|] eqn:Hparse; [|reflexivity].
  apply PyLong_FromString_readable in Hparse.
  rewrite (cannot_be_read_transform ucd s Hbad) in Hparse. discriminate.
Qed.

Example hex_to_ip_other_digits :
  Unicode.hex_to_ip ucd_excerpt [65297; 65298]%N = Returned "18.0.0.0" /\
  Unicode.hex_to_ip ucd_excerpt [1633]%N = Returned "1.0.0.0" /\
  Unicode.hex_to_ip ucd_excerpt [12288; 55; 70; 160]%N = Returned "127.0.0.0" /\
  Unicode.hex_to_ip ucd_excerpt [19968]%N = Returned "Invalid IP" /\
  Unicode.hex_to_ip ucd_excerpt [55; 70; 28]%N = Returned "Invalid IP".
Proof. repeat split; reflexivity. Qed.

Lemma all_chars_below_127 s :
  all_chars is_hex_digit s = true -> all_chars below_127 s = true.
Proof.
  induction s as [|c s IH]; [trivial|]. cbn [all_chars].
  intros [Hc Hs]%andb_prop. now rewrite (hex_digit_below_127 c Hc), (IH Hs).
Qed.

(** C3, the claim as stated fails: ["7F"] has the wrong length and
    ["+100007F"] holds a character that is no hexadecimal digit, and both
    are decoded to an address instead of the sentinel. *)
Lemma hex_to_ip_malformed_not_sentinel :
  malformed_address "7F" /\
  hex_to_ip "7F" = Returned "127.0.0.0" /\
  hex_to_ip "7F" <> Returned invalid_ip /\
  malformed_address "+100007F" /\
  hex_to_ip "+100007F" = Returned "127.0.0.1" /\
  hex_to_ip "+100007F" <> Returned invalid_ip.
Proof.
  repeat split; try reflexivity; try discriminate.
  - right. cbn. lia.
  - left. reflexivity.
Qed.

(** C3, amended.  For an address string of any code points: when it has
    a character that cannot occur in a base-16 literal of [int] (below
    127 a character that is no hexadecimal digit, no ASCII white space
    and none of [+ - _ x X]; from 127 on a character that is neither
    white space nor a decimal digit in Unicode, whatever the Unicode
    tables say of other characters), and whenever [int] raises
    [ValueError], the result is the sentinel ["Invalid IP"] and no
    exception leaves [hex_to_ip].  A string of one to seven hexadecimal
    digits is not rejected for its length: it is decoded like the same
    digits with zeros in front.  On strings of characters below 127 this
    is the [hex_to_ip] of the first model. *)
Theorem hex_to_ip_sentinel (ucd : Unicode.UnicodeData) :
  (forall s : list N, existsb (cannot_be_read ucd) s = true ->
     Unicode.hex_to_ip ucd s = Returned invalid_ip) /\
  (forall s : list N, Unicode.int16 ucd s = Raised ValueError ->
     Unicode.hex_to_ip ucd s = Returned invalid_ip) /\
  (forall s : string, all_chars is_hex_digit s = true ->
     (1 <= String.length s <= 7)%nat ->
     Unicode.hex_to_ip ucd (code_points s)
     = Returned (dotted_quad (hex_value s mod 256) (hex_value s / 256 mod 256)
                   (hex_value s / 65536 mod 256) (hex_value s / 16777216 mod 256)) /\
     Unicode.hex_to_ip ucd (code_points s) <> Returned invalid_ip) /\
  (forall s : string, all_chars below_127 s = true ->
     Unicode.hex_to_ip ucd (code_points s) = hex_to_ip s).
Proof.
  assert (Hvalue : forall s, Unicode.int16 ucd s = Raised ValueError ->
                             Unicode.hex_to_ip ucd s = Returned invalid_ip).
  { intros s H. unfold Unicode.hex_to_ip. now rewrite H. }
  split; [|split; [exact Hvalue|split; [|apply hex_to_ip_code_points]]].
  - intros s Hbad. apply Hvalue. now apply unicode_int16_rejects.
  - intros s Hall Hlen.
    rewrite (hex_to_ip_code_points ucd s)
      by (apply (all_chars_below_127 s), Hall).
    assert (Hne : s <> EmptyString) by (destruct s; [cbn in Hlen; lia | discriminate]).
    assert (Hdec : hex_to_ip s
                   = Returned (dotted_quad (hex_value s mod 256) (hex_value s / 256 mod 256)
                        (hex_value s / 65536 mod 256) (hex_value s / 16777216 mod 256))).
    { unfold hex_to_ip. rewrite int16_hex_digits by assumption.
      cbn [mbind result_bind Py.bind].
      rewrite pack_bytes by (apply hex_value_short; [lia | assumption]).
      reflexivity. }
    split; [exact Hdec|]. rewrite Hdec. intros [= H].
    now apply dotted_quad_not_sentinel in H.
Qed.

Lemma hex_to_ip_sentinel_witness :
  existsb (cannot_be_read ucd_excerpt) (code_points "0100007G") = true /\
  Unicode.hex_to_ip ucd_excerpt (code_points "0100007G") = Returned invalid_ip /\
  Unicode.hex_to_ip ucd_excerpt [48; 49; 8364]%N = Returned invalid_ip /\
  Unicode.hex_to_ip ucd_excerpt (code_points "a8c0") = Returned "192.168.0.0".
Proof.
  split; [reflexivity|]. split; [|split].
  - apply (proj1 (hex_to_ip_sentinel ucd_excerpt) (code_points "0100007G")).
    reflexivity.
  - apply (proj1 (hex_to_ip_sentinel ucd_excerpt) [48; 49; 8364]%N). reflexivity.
  - apply (proj1 (proj1 (proj2 (proj2 (hex_to_ip_sentinel ucd_excerpt))) "a8c0" eq_refl
                   (conj (le_S _ _ (le_S _ _ (le_S _ _ (le_n 1))))
                         (le_S _ _ (le_S _ _ (le_S _ _ (le_n 4))))))).
Defined.

(** ** Loops that log *)

Section ForEach.
Context {X : Type} (body : X -> logged unit).

Lemma for_each_completes xs :
  (forall x, In x xs -> outcome (body x) = Returned tt) ->
  for_each xs body = (logs_of body xs, Returned tt).
Proof.
  induction xs as [|x xs IH]; intros Hall; [reflexivity|].
  cbn [for_each]. unfold Logged.bind.
  pose proof (Hall x (or_introl eq_refl)) as Hx.
  destruct (body x) as [msgs r] eqn:Hbody. cbn in Hx. subst r.
  rewrite IH by (intros y Hy; apply Hall; now right).
  unfold logs_of. cbn [map concat]. now rewrite Hbody.
Qed.

Lemma for_each_aborts before bad after msgs e :
  (forall x, In x before -> outcome (body x) = Returned tt) ->
  body bad = (msgs, Raised e) ->
  for_each (before ++ bad :: after) body
  = ((logs_of body before ++ msgs)%list, Raised e).
Proof.
  intros Hall Hbad.
  induction before as [|x before IH].
  - cbn. now rewrite Hbad.
  - cbn [for_each app]. unfold Logged.bind.
    pose proof (Hall x (or_introl eq_refl)) as Hx.
    destruct (body x) as [ms r] eqn:Hbody. cbn in Hx. subst r.
    rewrite IH by (intros y Hy; apply Hall; now right).
    unfold logs_of. cbn [map concat]. rewrite Hbody. cbn [messages fst].
    now rewrite app_assoc.
Qed.

(** Whatever a loop logs, some turn of its body logged. *)
Lemma for_each_message xs msg :
  In msg (messages (for_each xs body)) ->
  exists x, In x xs /\ In msg (messages (body x)).
Proof.
  induction xs as [|x xs IH]; [intros []|].
  cbn [for_each]. unfold Logged.bind.
  destruct (body x) as [ms [[]|e]] eqn:Hbody.
  - destruct (for_each xs body) as [ms' r'] eqn:Hrest. cbn [messages fst].
    intros [Hin|Hin]%in_app_or.
    + exists x. split; [now left|]. now rewrite Hbody.
    + destruct (IH Hin) as (y & Hy & Hmsg). exists y. split; [now right|exact Hmsg].
  - cbn [messages fst]. intros Hin. exists x. split; [now left|]. now rewrite Hbody.
Qed.
End ForEach.

(** ** The network monitor *)

Lemma report_connection_no_split proto conn :
  endpoint_does_not_split conn ->
  report_connection proto conn = ([], Raised ValueError).
Proof.
  intros (endpoint & Hfield & Hlen).
  unfold report_connection, index. rewrite Hfield.
  cbn [lift Logged.bind app].
  destruct (split_char ":" endpoint) as [|a [|b [|c pieces]]]; try reflexivity.
  now destruct Hlen.
Qed.

Lemma report_connection_no_field proto conn :
  nth_error (split_whitespace conn) 1 = None ->
  report_connection proto conn = ([], Raised IndexError).
Proof.
  intros Hfield. unfold report_connection, index. now rewrite Hfield.
Qed.

(** C4, the claim as stated fails: the second line of the TCP table below
    has no [:] in its local-endpoint field; the cycle ends there with a
    [ValueError], and neither the connection of the line after it nor the
    UDP connection is logged. *)
Lemma malformed_line_not_skipped :
  let tcp_file := ["sl local_address rem_address st";
                   "   0: 0100007F:0035 00000000:0000 0A";
                   "   1: 0100007F0050 00000000:0000 0A";
                   "   2: 0100007F:01BB 00000000:0000 0A"] in
  let udp_file := ["sl local_address rem_address st";
                   "   0: 00000000:0044 00000000:0000 07"] in
  endpoint_does_not_split "   1: 0100007F0050 00000000:0000 0A" /\
  report_connection TCP "   2: 0100007F:01BB 00000000:0000 0A"
    = ([TcpConnection "127.0.0.1" 443], Returned tt) /\
  monitor_network_cycle tcp_file udp_file
    = ([TcpConnection "127.0.0.1" 53], Raised ValueError) /\
  ~ In (TcpConnection "127.0.0.1" 443)
       (messages (monitor_network_cycle tcp_file udp_file)) /\
  ~ In (UdpConnection "0.0.0.0" 68)
       (messages (monitor_network_cycle tcp_file udp_file)).
Proof.
  cbv zeta. split; [|split; [reflexivity | split; [reflexivity|]]].
  - exists "0100007F0050". split; [reflexivity|]. vm_compute. lia.
  - split; vm_compute; intros [H|[]]; discriminate H.
Qed.

(** C4, amended.  A line of a connection table whose local-endpoint field
    does not split at [:] into exactly two pieces is not skipped: the
    cycle ends at this line with a [ValueError].  The lines before it have
    been reported, nothing is logged for the line itself or for any line
    after it, and when the line is in the TCP table no line of the UDP
    table is reported. *)
Theorem malformed_line_aborts_cycle :
  (forall tcp_file udp_file before bad after,
     read_connections tcp_file = (before ++ bad :: after)%list ->
     (forall conn, In conn before ->
        outcome (report_connection TCP conn) = Returned tt) ->
     endpoint_does_not_split bad ->
     monitor_network_cycle tcp_file udp_file
     = (logs_of (report_connection TCP) before, Raised ValueError)) /\
  (forall tcp_file udp_file before bad after,
     (forall conn, In conn (read_connections tcp_file) ->
        outcome (report_connection TCP conn) = Returned tt) ->
     read_connections udp_file = (before ++ bad :: after)%list ->
     (forall conn, In conn before ->
        outcome (report_connection UDP conn) = Returned tt) ->
     endpoint_does_not_split bad ->
     monitor_network_cycle tcp_file udp_file
     = ((logs_of (report_connection TCP) (read_connections tcp_file)
         ++ logs_of (report_connection UDP) before)%list, Raised ValueError)).
Proof.
  split.
  - intros tcp_file udp_file before bad after Htcp Hbefore Hbad.
    unfold monitor_network_cycle. rewrite Htcp.
    rewrite (for_each_aborts _ before bad after [] ValueError Hbefore
               (report_connection_no_split TCP bad Hbad)).
    cbn [Logged.bind]. now rewrite app_nil_r.
  - intros tcp_file udp_file before bad after Htcp Hudp Hbefore Hbad.
    unfold monitor_network_cycle. rewrite Hudp.
    rewrite (for_each_completes _ _ Htcp).
    rewrite (for_each_aborts _ before bad after [] ValueError Hbefore
               (report_connection_no_split UDP bad Hbad)).
    cbn [Logged.bind]. now rewrite app_nil_r.
Qed.

Lemma malformed_line_aborts_cycle_witness :
  monitor_network_cycle
    ["sl local_address"; "   0: 0100007F:0035 00000000:0000 0A";
     "   1: 0100007F0050 00000000:0000 0A"; "   2: 0100007F:01BB 00000000:0000 0A"]
    ["sl local_address"; "   0: 00000000:0044 00000000:0000 07"]
  = ([TcpConnection "127.0.0.1" 53], Raised ValueError) /\
  monitor_network_cycle
    ["sl local_address"; "   0: 0100007F:0035 00000000:0000 0A"]
    ["sl local_address"; "   0: 00000000:0044 00000000:0000 07";
     "   1: 0100007F:0050:1 00000000:0000 07"; "   2: 00000000:0045 00000000:0000 07"]
  = ([TcpConnection "127.0.0.1" 53; UdpConnection "0.0.0.0" 68], Raised ValueError).
Proof.
  split.
  - apply (proj1 malformed_line_aborts_cycle
             ["sl local_address"; "   0: 0100007F:0035 00000000:0000 0A";
              "   1: 0100007F0050 00000000:0000 0A";
              "   2: 0100007F:01BB 00000000:0000 0A"]
             ["sl local_address"; "   0: 00000000:0044 00000000:0000 07"]
             ["   0: 0100007F:0035 00000000:0000 0A"]
             "   1: 0100007F0050 00000000:0000 0A"
             ["   2: 0100007F:01BB 00000000:0000 0A"]).
    + reflexivity.
    + intros conn [<-|[]]. reflexivity.
    + exists "0100007F0050". split; [reflexivity|]. vm_compute. lia.
  - apply (proj2 malformed_line_aborts_cycle
             ["sl local_address"; "   0: 0100007F:0035 00000000:0000 0A"]
             ["sl local_address"; "   0: 00000000:0044 00000000:0000 07";
              "   1: 0100007F:0050:1 00000000:0000 07";
              "   2: 00000000:0045 00000000:0000 07"]
             ["   0: 00000000:0044 00000000:0000 07"]
             "   1: 0100007F:0050:1 00000000:0000 07"
             ["   2: 00000000:0045 00000000:0000 07"]).
    + intros conn [<-|[]]. reflexivity.
    + reflexivity.
    + intros conn [<-|[]]. reflexivity.
    + exists "0100007F:0050:1". split; [reflexivity|]. vm_compute. lia.
Defined.

(** ** The file system watcher *)

(** C5, the claim as stated fails: a move whose destination alone carries
    the marker in its base name is logged (here as a rename). *)
Lemma on_moved_marker_in_destination :
  let event := {| src_path := "a/x"; dest_path := "a/x.goutputstream-A1B2C3";
                  is_directory := false |} in
  contains marker (basename (dest_path event)) = true /\
  on_moved init event = (init, [FileRenamed "a/x" "a/x.goutputstream-A1B2C3"]) /\
  snd (on_moved init event) <> [].
Proof. cbv zeta. repeat split; try reflexivity. discriminate. Qed.

(** C5, amended.  For a move/rename notification: if the base name of the
    source path contains the marker, nothing is logged; otherwise exactly
    one message is logged, whatever the base name of the destination: a
    "renamed" message when [os.path.dirname] of source and destination are
    equal, a "moved" message when they differ.  The handler's state does
    not change. *)
Theorem on_moved_events (self : FileAuditHandler) (event : FileSystemEvent) :
  (contains marker (basename (src_path event)) = true ->
     on_moved self event = (self, [])) /\
  (contains marker (basename (src_path event)) = false ->
     dirname (src_path event) = dirname (dest_path event) ->
     on_moved self event
     = (self, [FileRenamed (src_path event) (dest_path event)])) /\
  (contains marker (basename (src_path event)) = false ->
     dirname (src_path event) <> dirname (dest_path event) ->
     on_moved self event
     = (self, [FileMoved (src_path event) (dest_path event)])).
Proof.
  unfold on_moved. repeat split; intros Hm; rewrite Hm; try reflexivity.
  - intros Hdir. apply String.eqb_eq in Hdir. now rewrite Hdir.
  - intros Hdir. apply String.eqb_neq in Hdir. now rewrite Hdir.
Qed.

Lemma on_moved_events_witness :
  on_moved init {| src_path := "a/x.goutputstream-Q"; dest_path := "a/x";
                   is_directory := false |} = (init, []) /\
  on_moved init {| src_path := "a/x"; dest_path := "a/y"; is_directory := false |}
  = (init, [FileRenamed "a/x" "a/y"]) /\
  on_moved init {| src_path := "a/x"; dest_path := "b/x"; is_directory := false |}
  = (init, [FileMoved "a/x" "b/x"]).
Proof.
  split; [|split].
  - apply (proj1 (on_moved_events init _)). reflexivity.
  - apply (proj1 (proj2 (on_moved_events init
             {| src_path := "a/x"; dest_path := "a/y"; is_directory := false |})));
      reflexivity.
  - apply (proj2 (proj2 (on_moved_events init
             {| src_path := "a/x"; dest_path := "b/x"; is_directory := false |})));
      [reflexivity | discriminate].
Defined.

Lemma os_path_exists_nonempty fs p :
  os_path_exists fs p = true -> truthy (Some p) = true.
Proof. destruct p; [discriminate | reflexivity]. Qed.

(** C7.  For a creation notification whose base name contains the marker,
    with [original] the path before the first marker: when [original]
    exists, the link from the temp path to [original] is recorded and
    exactly one message, the correlation message naming [original], is
    logged; when it does not exist nothing is logged and the state is
    unchanged; in neither case is a plain file-creation message logged. *)
Theorem on_created_temp_file (fs : FileSystem) (self : FileAuditHandler)
    (event : FileSystemEvent) :
  contains marker (basename (src_path event)) = true ->
  let original := split_head marker (src_path event) in
  (os_path_exists fs original = true ->
     on_created fs self event
     = (set_temporary_file self (src_path event) original,
        [TempFileCreated (src_path event) original]) /\
     temporary_file_map (fst (on_created fs self event)) !! src_path event
     = Some original) /\
  (os_path_exists fs original = false -> on_created fs self event = (self, [])) /\
  (forall path, ~ In (FileCreated path) (snd (on_created fs self event))).
Proof.
  intros Hm original. unfold on_created, find_original_file. rewrite Hm.
  fold original. destruct (os_path_exists fs original) eqn:Hex.
  - rewrite (os_path_exists_nonempty fs original Hex).
    split; [|split].
    + intros _. split; [reflexivity|]. cbn. apply lookup_insert_eq.
    + discriminate.
    + intros path [H|[]]. discriminate H.
  - split; [discriminate|]. split; [reflexivity|]. intros path [].
Qed.

Lemma on_created_temp_file_witness :
  let fs := {| fs_exists := fun p => String.eqb p "/r/foo"; fs_isdir := fun _ => false |} in
  let event := {| src_path := "/r/foo.goutputstream-X1"; dest_path := "";
                  is_directory := false |} in
  snd (on_created fs init event)
  = [TempFileCreated "/r/foo.goutputstream-X1" "/r/foo"] /\
  temporary_file_map (fst (on_created fs init event)) !! "/r/foo.goutputstream-X1"
  = Some "/r/foo".
Proof.
  cbv zeta.
  pose proof (on_created_temp_file
    {| fs_exists := fun p => String.eqb p "/r/foo"; fs_isdir := fun _ => false |}
    init
    {| src_path := "/r/foo.goutputstream-X1"; dest_path := ""; is_directory := false |}
    eq_refl) as H.
  cbv zeta in H. destruct H as (Hyes & _).
  destruct (Hyes eq_refl) as (Hrun & Hmap).
  split; [now rewrite Hrun | exact Hmap].
Defined.

(** C8.  For a deletion notification: if the base name of the deleted
    path contains the marker, nothing is logged; otherwise exactly one
    message is logged, the directory-deletion message when the entry is a
    directory and the file-deletion message otherwise. *)
Theorem on_deleted_events (self : FileAuditHandler) (event : FileSystemEvent) :
  (contains marker (basename (src_path event)) = true ->
     on_deleted self event = (self, [])) /\
  (contains marker (basename (src_path event)) = false ->
     is_directory event = true ->
     on_deleted self event = (self, [DirectoryDeleted (src_path event)])) /\
  (contains marker (basename (src_path event)) = false ->
     is_directory event = false ->
     on_deleted self event = (self, [FileDeleted (src_path event)])).
Proof.
  unfold on_deleted.
  repeat split; intros Hm; rewrite Hm; try reflexivity; now intros ->.
Qed.

Lemma on_deleted_events_witness :
  on_deleted init {| src_path := "/r/foo.goutputstream-X1"; dest_path := "";
                     is_directory := false |} = (init, []) /\
  on_deleted init {| src_path := "/r/d"; dest_path := ""; is_directory := true |}
  = (init, [DirectoryDeleted "/r/d"]) /\
  on_deleted init {| src_path := "/r/f"; dest_path := ""; is_directory := false |}
  = (init, [FileDeleted "/r/f"]).
Proof.
  split; [|split].
  - apply (proj1 (on_deleted_events init _)). reflexivity.
  - apply (proj1 (proj2 (on_deleted_events init
             {| src_path := "/r/d"; dest_path := ""; is_directory := true |})));
      reflexivity.
  - apply (proj2 (proj2 (on_deleted_events init
             {| src_path := "/r/f"; dest_path := ""; is_directory := false |})));
      reflexivity.
Defined.

(** ** [main] *)

Example main_valid_root :
  @main willing_host {| fs_exists := fun _ => true; fs_isdir := fun _ => true |}
       ["audit_tool.py"; "/srv/data"]
  = [SetupLogger "file_system_log.txt" "FileSystem";
     SetupLogger "process_log.txt" "Process";
     SetupLogger "network_log.txt" "Network";
     LogInfo "FileSystem" (MonitoringStarted "/srv/data");
     StartProcessMonitor; StartNetworkMonitor; StartObserver "/srv/data";
     PrintStarted "/srv/data"; JoinObserver].
Proof. reflexivity. Qed.

(** C9.  When the root-path argument is missing, and when it names a path
    that does not exist or is not a directory, [main] prints a message
    (the usage line in the first case, the error with the path in the
    second) and calls [sys.exit(1)]: the exit status is 1, not 0, and no
    observer has been started. *)
Theorem main_rejects_invalid_root `{Host} (fs : FileSystem) (argv : list string) :
  ((length argv < 2)%nat -> main fs argv = [PrintUsage; SysExit 1]) /\
  (forall path, nth_error argv 1 = Some path ->
     os_path_exists fs path = false \/ os_path_isdir fs path = false ->
     main fs argv = [PrintPathError path; SysExit 1]) /\
  ((length argv < 2)%nat \/
   (exists path, nth_error argv 1 = Some path /\
      (os_path_exists fs path = false \/ os_path_isdir fs path = false)) ->
   exit_status (main fs argv) = Some 1 /\
   exit_status (main fs argv) <> Some 0 /\
   (forall a, In a (main fs argv) -> starts_observer a = false)).
Proof.
  assert (Husage : (length argv < 2)%nat -> main fs argv = [PrintUsage; SysExit 1]).
  { intros Hlen. unfold main.
    now replace (length argv <? 2)%nat with true by (symmetry; apply Nat.ltb_lt; lia). }
  assert (Hpath : forall path, nth_error argv 1 = Some path ->
            os_path_exists fs path = false \/ os_path_isdir fs path = false ->
            main fs argv = [PrintPathError path; SysExit 1]).
  { intros path Hnth Hbad. unfold main.
    assert (Hlen : (1 < length argv)%nat)
      by (apply nth_error_Some; rewrite Hnth; discriminate).
    replace (length argv <? 2)%nat with false by (symmetry; apply Nat.ltb_ge; lia).
    rewrite Hnth.
    now destruct Hbad as [-> | ->]; [|rewrite orb_true_r]. }
  split; [exact Husage|]. split; [exact Hpath|].
  intros [Hlen | (path & Hnth & Hbad)].
  - rewrite (Husage Hlen). split; [reflexivity|]. split; [discriminate|].
    intros a [<-|[<-|[]]]; reflexivity.
  - rewrite (Hpath path Hnth Hbad). split; [reflexivity|]. split; [discriminate|].
    intros a [<-|[<-|[]]]; reflexivity.
Qed.

Lemma main_rejects_invalid_root_witness :
  main {| fs_exists := fun _ => true; fs_isdir := fun _ => true |} ["audit_tool.py"]
  = [PrintUsage; SysExit 1] /\
  main {| fs_exists := fun _ => true; fs_isdir := fun _ => false |}
       ["audit_tool.py"; "/etc/passwd"]
  = [PrintPathError "/etc/passwd"; SysExit 1] /\
  exit_status
    (main {| fs_exists := fun _ => false; fs_isdir := fun _ => false |}
          ["audit_tool.py"; "/nowhere"]) = Some 1.
Proof.
  split; [|split].
  - apply (proj1 (main_rejects_invalid_root _ ["audit_tool.py"])). cbn. lia.
  - apply (proj1 (proj2 (main_rejects_invalid_root
             {| fs_exists := fun _ => true; fs_isdir := fun _ => false |}
             ["audit_tool.py"; "/etc/passwd"])) "/etc/passwd" eq_refl).
    right. reflexivity.
  - apply (proj2 (proj2 (main_rejects_invalid_root
             {| fs_exists := fun _ => false; fs_isdir := fun _ => false |}
             ["audit_tool.py"; "/nowhere"]))).
    right. exists "/nowhere". split; [reflexivity|]. left. reflexivity.
Defined.

(** ** The process monitor *)

Lemma bind_messages {A B} (m : logged A) (k : A -> logged B) msg :
  In msg (messages (Logged.bind m k)) ->
  In msg (messages m) \/
  exists a, outcome m = Returned a /\ In msg (messages (k a)).
Proof.
  destruct m as [msgs [a|e]]; cbn [Logged.bind].
  - destruct (k a) as [msgs' r] eqn:Hk. cbn [messages fst outcome snd].
    intros [H|H]%in_app_or; [now left|]. right. exists a. now rewrite Hk.
  - now left.
Qed.


Section ProcessMonitor.
Context `{SetIteration}.
Variable proc : ProcTable.

Lemma set_iter_elem (X : gset string) pid : In pid (set_iter X) <-> pid ∈ X.
Proof.
  rewrite <- list_elem_of_In, (set_iter_perm X). apply elem_of_elements.
Qed.

Lemma set_iter_NoDup (X : gset string) : List.NoDup (set_iter X).
Proof.
  apply NoDup_ListNoDup. rewrite (set_iter_perm X). apply NoDup_elements.
Qed.

Lemma report_new_pid_returned pid content :
  read_cmdline proc pid = Returned content ->
  report_new_pid proc pid = ([start_message pid content], Returned tt).
Proof.
  intros Hread. unfold report_new_pid, start_message. rewrite Hread.
  cbn [lift Logged.bind].
  now destruct (strip (replace_char "000" " " content)).
Qed.

Lemma report_new_pid_vanished pid :
  read_cmdline proc pid = Raised FileNotFoundError ->
  report_new_pid proc pid = ([], Returned tt).
Proof. intros Hread. unfold report_new_pid. now rewrite Hread. Qed.

Lemma report_new_pid_fault pid e :
  read_cmdline proc pid = Raised e -> e <> FileNotFoundError ->
  report_new_pid proc pid = ([], Raised e).
Proof.
  intros Hread He. unfold report_new_pid. rewrite Hread.
  cbn [lift Logged.bind try_catch]. destruct e; try reflexivity. congruence.
Qed.

Lemma start_message_about pid content q :
  about q (start_message pid content) = String.eqb pid q.
Proof.
  unfold start_message. now destruct (strip (replace_char "000" " " content)).
Qed.

Lemma start_message_not_terminated pid content q :
  start_message pid content <> ProcessTerminated q.
Proof.
  unfold start_message.
  destruct (strip (replace_char "000" " " content)); discriminate.
Qed.

(** What the body of the first loop logs is a start message for its
    own PID. *)
Lemma report_new_pid_message pid msg :
  In msg (messages (report_new_pid proc pid)) ->
  exists content, read_cmdline proc pid = Returned content /\
                  msg = start_message pid content.
Proof.
  destruct (read_cmdline proc pid) as [content|e] eqn:Hread.
  - rewrite (report_new_pid_returned pid content Hread).
    intros [<-|[]]. now exists content.
  - destruct (exn_eqb e FileNotFoundError) eqn:He.
    + destruct e; try discriminate He.
      rewrite (report_new_pid_vanished pid Hread). intros [].
    + rewrite (report_new_pid_fault pid e Hread); [intros []|].
      intros ->. discriminate He.
Qed.

Lemma report_new_pid_completes pids pid :
  only_vanished proc pids -> pid ∈ pids ->
  outcome (report_new_pid proc pid) = Returned tt.
Proof.
  intros Honly Hin.
  destruct (read_cmdline proc pid) as [content|e] eqn:Hread.
  - now rewrite (report_new_pid_returned pid content Hread).
  - rewrite (Honly pid e Hin Hread) in Hread.
    now rewrite (report_new_pid_vanished pid Hread).
Qed.

(** Every message of a cycle is a start message of an added PID or the
    termination message of a removed PID. *)
Lemma cycle_message known msg :
  In msg (messages (monitor_processes_cycle proc known)) ->
  (exists pid content,
      pid ∈ new_pids (current_pids proc) known /\
      read_cmdline proc pid = Returned content /\
      msg = start_message pid content) \/
  (exists pid,
      pid ∈ terminated_pids (current_pids proc) known /\
      msg = ProcessTerminated pid).
Proof.
  unfold monitor_processes_cycle.
  intros [Hin | (_ & _ & Hin)]%bind_messages.
  - left. apply for_each_message in Hin as (pid & Hpid & Hmsg).
    apply report_new_pid_message in Hmsg as (content & Hread & ->).
    exists pid, content. now rewrite <- set_iter_elem.
  - apply bind_messages in Hin as [Hin | (_ & _ & [])].
    right. apply for_each_message in Hin as (pid & Hpid & [<-|[]]).
    exists pid. now rewrite <- set_iter_elem.
Qed.

(** A cycle in which no read fails for another reason than a vanished
    process runs both loops to their end. *)
Lemma cycle_completes known :
  only_vanished proc (new_pids (current_pids proc) known) ->
  monitor_processes_cycle proc known
  = ((logs_of (report_new_pid proc) (set_iter (new_pids (current_pids proc) known))
      ++ map ProcessTerminated (set_iter (terminated_pids (current_pids proc) known)))%list,
     Returned (current_pids proc)).
Proof.
  intros Honly. unfold monitor_processes_cycle.
  rewrite (for_each_completes (report_new_pid proc)).
  2:{ intros pid Hpid. eapply report_new_pid_completes; [exact Honly|].
      now apply set_iter_elem. }
  rewrite (for_each_completes (fun pid => info (ProcessTerminated pid)))
    by reflexivity.
  cbn [Logged.bind ret]. rewrite app_nil_r. f_equal. f_equal.
  unfold logs_of.
  induction (set_iter (terminated_pids (current_pids proc) known)) as [|p ps IH];
    [reflexivity|]. cbn. now rewrite <- IH.
Qed.

Lemma messages_about_none pid msgs :
  (forall msg, In msg msgs -> about pid msg = false) ->
  messages_about pid msgs = [].
Proof.
  induction msgs as [|m msgs IH]; intros Hall; [reflexivity|].
  unfold messages_about. cbn [List.filter].
  rewrite (Hall m (or_introl eq_refl)).
  apply IH. intros msg Hin. apply Hall. now right.
Qed.

Lemma messages_about_other pid pids :
  ~ In pid pids ->
  messages_about pid (logs_of (report_new_pid proc) pids) = [].
Proof.
  intros Hnotin. apply messages_about_none. intros msg Hin.
  unfold logs_of in Hin. apply in_concat in Hin as (ms & Hms & Hin).
  apply in_map_iff in Hms as (q & <- & Hq).
  apply report_new_pid_message in Hin as (content & _ & ->).
  rewrite start_message_about. apply String.eqb_neq. now intros ->.
Qed.

Lemma messages_about_own pid :
  messages_about pid (messages (report_new_pid proc pid))
  = messages (report_new_pid proc pid).
Proof.
  destruct (read_cmdline proc pid) as [content|e] eqn:Hread.
  - rewrite (report_new_pid_returned pid content Hread).
    unfold messages_about. cbn [messages fst List.filter].
    now rewrite start_message_about, String.eqb_refl.
  - destruct (exn_eqb e FileNotFoundError) eqn:He.
    + destruct e; try discriminate He.
      now rewrite (report_new_pid_vanished pid Hread).
    + rewrite (report_new_pid_fault pid e Hread); [reflexivity|].
      intros ->. discriminate He.
Qed.

Lemma messages_about_visited pid pids :
  List.NoDup pids -> In pid pids ->
  messages_about pid (logs_of (report_new_pid proc) pids)
  = messages (report_new_pid proc pid).
Proof.
  induction 1 as [|q pids Hq Hnodup IH]; [intros []|].
  unfold logs_of. cbn [map concat]. unfold messages_about.
  rewrite List.filter_app. fold (messages_about pid (messages (report_new_pid proc q))).
  fold (logs_of (report_new_pid proc) pids).
  fold (messages_about pid (logs_of (report_new_pid proc) pids)).
  intros [-> | Hin].
  - rewrite messages_about_own, (messages_about_other pid pids Hq).
    now rewrite app_nil_r.
  - rewrite (IH Hin).
    assert (Hne : q <> pid) by (intros ->; contradiction).
    replace (messages_about pid (messages (report_new_pid proc q))) with (@nil message);
      [reflexivity|].
    symmetry. apply messages_about_none. intros msg Hmsg.
    apply report_new_pid_message in Hmsg as (content & _ & ->).
    rewrite start_message_about. now apply String.eqb_neq.
Qed.

Lemma messages_about_terminated pid pids :
  ~ In pid pids -> messages_about pid (map ProcessTerminated pids) = [].
Proof.
  intros Hnotin. apply messages_about_none.
  intros msg (q & <- & Hq)%in_map_iff. cbn [about].
  apply String.eqb_neq. now intros ->.
Qed.

(** In a cycle that no other fault ends, the messages about an added
    PID are those of its own turn of the first loop. *)
Lemma cycle_messages_about known pid :
  only_vanished proc (new_pids (current_pids proc) known) ->
  pid ∈ new_pids (current_pids proc) known ->
  messages_about pid (messages (monitor_processes_cycle proc known))
  = messages (report_new_pid proc pid).
Proof.
  intros Honly Hpid. rewrite (cycle_completes known Honly).
  cbn [messages fst]. unfold messages_about. rewrite List.filter_app.
  fold (messages_about pid (logs_of (report_new_pid proc)
          (set_iter (new_pids (current_pids proc) known)))).
  fold (messages_about pid (map ProcessTerminated
          (set_iter (terminated_pids (current_pids proc) known)))).
  rewrite messages_about_visited
    by (apply set_iter_NoDup || now apply set_iter_elem).
  rewrite messages_about_terminated; [now rewrite app_nil_r|].
  rewrite set_iter_elem. unfold new_pids in Hpid. unfold terminated_pids.
  rewrite elem_of_difference in Hpid. rewrite elem_of_difference. tauto.
Qed.
End ProcessMonitor.

(** C1.  The differ of the process monitor (lines 65-66): for all sets
    [previous] and [current], the added set is [current] minus [previous]
    and the removed set is [previous] minus [current], element by element;
    diffing a set against itself gives two empty sets. *)
Theorem diff_correct :
  (forall previous current : gset string,
     diff previous current = (current ∖ previous, previous ∖ current) /\
     (forall pid, pid ∈ (diff previous current).1 <-> pid ∈ current /\ pid ∉ previous) /\
     (forall pid, pid ∈ (diff previous current).2 <-> pid ∈ previous /\ pid ∉ current)) /\
  (forall A : gset string, diff A A = (∅, ∅)).
Proof.
  split.
  - intros previous current. split; [reflexivity|].
    unfold diff, new_pids, terminated_pids. cbn [fst snd].
    split; intros pid; apply elem_of_difference.
  - intros A. unfold diff, new_pids, terminated_pids.
    now rewrite difference_diag_L.
Qed.

(** C6.  For a PID added in a cycle: when reading its command line raises
    [FileNotFoundError] (the process is gone), its turn of the loop logs
    nothing and goes on, and the cycle has no message about the PID; when
    the read succeeds and the command line is empty (the empty string, or
    only NUL characters and white space, which line 71 removes), its turn
    logs exactly the "no command" message, and this is the one message
    about the PID in a cycle that no other fault of a read ends. *)
Theorem new_pid_events `{SetIteration} (proc : ProcTable) (known : gset string)
    (pid : string) :
  pid ∈ new_pids (current_pids proc) known ->
  (read_cmdline proc pid = Raised FileNotFoundError ->
     report_new_pid proc pid = ([], Returned tt) /\
     messages_about pid (messages (monitor_processes_cycle proc known)) = []) /\
  (forall content,
     read_cmdline proc pid = Returned content ->
     content = "" \/ strip (replace_char "000" " " content) = "" ->
     report_new_pid proc pid = ([ProcessStartedNoCommand pid], Returned tt) /\
     (only_vanished proc (new_pids (current_pids proc) known) ->
      messages_about pid (messages (monitor_processes_cycle proc known))
      = [ProcessStartedNoCommand pid])).
Proof.
  intros Hpid. split.
  - intros Hread. split; [now apply report_new_pid_vanished|].
    apply messages_about_none. intros msg Hmsg.
    apply cycle_message in Hmsg
      as [(q & content & Hq & Hreadq & ->) | (q & Hq & ->)].
    + rewrite start_message_about. apply String.eqb_neq. intros ->. congruence.
    + cbn [about]. apply String.eqb_neq. intros ->.
      unfold new_pids in Hpid. unfold terminated_pids in Hq.
      rewrite elem_of_difference in Hpid, Hq. tauto.
  - intros content Hread Hempty.
    assert (Hcmd : strip (replace_char "000" " " content) = "")
      by (destruct Hempty as [-> | Hcmd]; [reflexivity | exact Hcmd]).
    pose proof (report_new_pid_returned proc pid content Hread) as Hturn.
    unfold start_message in Hturn. rewrite Hcmd in Hturn.
    split; [exact Hturn|]. intros Honly.
    rewrite (cycle_messages_about proc known pid Honly Hpid). now rewrite Hturn.
Qed.



(** ** The theorems at concrete process tables *)

Lemma new_pid_events_witness :
  let proc := {| listdir := ["7"; "8"; "self"];
                 read_cmdline := fun pid =>
                   if String.eqb pid "7" then Raised FileNotFoundError
                   else Returned "" |} in
  messages_about "7" (messages (monitor_processes_cycle proc ∅)) = [] /\
  messages_about "8" (messages (monitor_processes_cycle proc ∅))
  = [ProcessStartedNoCommand "8"].
Proof.
  intros proc.
  assert (H7 : "7" ∈ new_pids (current_pids proc) ∅) by (vm_compute; reflexivity).
  assert (H8 : "8" ∈ new_pids (current_pids proc) ∅) by (vm_compute; reflexivity).
  split.
  - exact (proj2 (proj1 (new_pid_events proc ∅ "7" H7) eq_refl)).
  - apply (proj2 (proj2 (new_pid_events proc ∅ "8" H8) "" eq_refl
                    (or_introl eq_refl))).
    intros pid e _. cbn [read_cmdline proc].
    destruct (String.eqb pid "7"); congruence.
Defined.


(** * Further properties of the code *)

(** ** Strings and paths *)

Lemma append_cons c s t : String c s ++ t = String c (s ++ t).
Proof. reflexivity. Qed.

Lemma append_empty_r s : s ++ "" = s.
Proof. induction s as [|c s IH]; [reflexivity|]. now rewrite append_cons, IH. Qed.

Lemma append_assoc (a b c : string) : (a ++ b) ++ c = a ++ (b ++ c).
Proof.
  induction a as [|x a IH]; [reflexivity|]. now rewrite !append_cons, IH.
Qed.

Lemma all_chars_app P a b :
  all_chars P (a ++ b) = all_chars P a && all_chars P b.
Proof.
  induction a as [|c a IH]; [reflexivity|].
  rewrite append_cons. cbn [all_chars]. now rewrite IH, andb_assoc.
Qed.

Lemma all_chars_impl (P Q : ascii -> bool) s :
  (forall c, P c = true -> Q c = true) ->
  all_chars P s = true -> all_chars Q s = true.
Proof.
  intros HPQ. induction s as [|c s IH]; [trivial|]. cbn [all_chars].
  intros [Hc Hs]%andb_prop. now rewrite (HPQ c Hc), IH.
Qed.

Lemma has_slash_app a b : has_slash (a ++ b) = has_slash a || has_slash b.
Proof.
  induction a as [|c a IH]; [reflexivity|].
  rewrite append_cons. cbn [has_slash]. now rewrite IH, orb_assoc.
Qed.

Lemma rsplit_slash_none x : has_slash x = false -> rsplit_slash x = ("", x).
Proof.
  destruct x as [|c x]; [reflexivity|]. cbn [has_slash rsplit_slash]. now intros ->.
Qed.

Lemma rsplit_slash_join d x :
  has_slash x = false -> rsplit_slash (d ++ "/" ++ x) = (d ++ "/", x).
Proof.
  intros Hx. induction d as [|c d IH].
  - change ("" ++ "/" ++ x) with (String "/" x). cbn [rsplit_slash is_slash].
    now rewrite (rsplit_slash_none x Hx).
  - rewrite append_cons. cbn [rsplit_slash].
    rewrite has_slash_app, IH.
    assert (Hslash : has_slash ("/" ++ x) = true) by reflexivity.
    now rewrite Hslash, !orb_true_r.
Qed.

Lemma rsplit_slash_app p :
  fst (rsplit_slash p) ++ snd (rsplit_slash p) = p.
Proof.
  induction p as [|c p IH]; [reflexivity|]. cbn [rsplit_slash].
  destruct (is_slash c || has_slash p); [|reflexivity].
  destruct (rsplit_slash p) as [head tail]. cbn [fst snd] in *.
  now rewrite append_cons, IH.
Qed.

Lemma basename_join d x : has_slash x = false -> basename (d ++ "/" ++ x) = x.
Proof. intros Hx. unfold basename. now rewrite rsplit_slash_join. Qed.

Lemma basename_plain x : has_slash x = false -> basename x = x.
Proof. intros Hx. unfold basename. now rewrite rsplit_slash_none. Qed.

Lemma dirname_plain x : has_slash x = false -> dirname x = "".
Proof. intros Hx. unfold dirname. now rewrite rsplit_slash_none. Qed.

Lemma last_char_all P d c :
  last_char d = Some c -> all_chars P d = true -> P c = true.
Proof.
  induction d as [|a d IH]; [discriminate|].
  destruct d as [|b d].
  - cbn. intros [= Heq] Hall. subst. now rewrite andb_true_r in Hall.
  - intros Hlast [_ Hall]%andb_prop. now apply IH.
Qed.

Lemma rstrip_app_stripped P d c :
  P c = true -> rstrip P (d ++ String c "") = rstrip P d.
Proof.
  intros Hc. induction d as [|a d IH].
  - change ("" ++ String c "") with (String c ""). cbn [rstrip]. now rewrite Hc.
  - rewrite append_cons. cbn [rstrip]. now rewrite IH.
Qed.

Lemma rstrip_unchanged P d c :
  last_char d = Some c -> P c = false -> rstrip P d = d.
Proof.
  intros Hlast Hc. induction d as [|a d IH]; [discriminate|].
  destruct d as [|b d].
  - cbn in Hlast. injection Hlast as ->. cbn. now rewrite Hc.
  - cbn [rstrip] in *. now rewrite (IH Hlast).
Qed.

Lemma dirname_join d x :
  no_trailing_slash d -> has_slash x = false -> dirname (d ++ "/" ++ x) = d.
Proof.
  intros (c & Hlast & Hc) Hx. unfold dirname. rewrite rsplit_slash_join by exact Hx.
  cbn [fst].
  assert (Hnot : all_chars is_slash (d ++ "/") = false).
  { rewrite all_chars_app. destruct (all_chars is_slash d) eqn:Hall; [|reflexivity].
    rewrite (last_char_all is_slash d c Hlast Hall) in Hc. discriminate. }
  rewrite Hnot.
  rewrite (rstrip_app_stripped is_slash d "/" eq_refl).
  rewrite (rstrip_unchanged is_slash d c Hlast Hc).
  destruct d as [|a d]; [discriminate Hlast | reflexivity].
Qed.

Lemma dirname_same_head d x y :
  has_slash x = false -> has_slash y = false ->
  dirname (d ++ "/" ++ x) = dirname (d ++ "/" ++ y).
Proof.
  intros Hx Hy. unfold dirname. now rewrite !rsplit_slash_join.
Qed.

(** ** The marker in a path *)

Lemma prefix_split a s :
  String.prefix a s = true -> exists r, s = a ++ r.
Proof.
  revert s. induction a as [|c a IH]; intros s; [now exists s|].
  destruct s as [|c' s]; [discriminate|]. cbn [String.prefix].
  destruct (ascii_dec c c') as [<-|]; [|discriminate].
  intros (r & ->)%IH. now exists r.
Qed.

Lemma prefix_app_r a b r :
  String.prefix a b = true -> String.prefix a (b ++ r) = true.
Proof.
  revert b. induction a as [|c a IH]; intros b; [now destruct (b ++ r)|].
  destruct b as [|c' b]; [discriminate|]. rewrite append_cons. cbn [String.prefix].
  destruct (ascii_dec c c'); [apply IH | discriminate].
Qed.

Lemma prefix_empty a : a <> "" -> String.prefix a "" = false.
Proof. now destruct a. Qed.

Lemma split_head_prefix sep s : exists r, s = split_head sep s ++ r.
Proof.
  induction s as [|c s (r & IH)]; cbn [split_head].
  - exists "". now destruct (String.prefix sep "").
  - destruct (String.prefix sep (String c s)); [now exists (String c s)|].
    exists r. now rewrite append_cons, <- IH.
Qed.

Lemma split_head_found sep s :
  contains sep s = true -> exists rest, s = split_head sep s ++ sep ++ rest.
Proof.
  induction s as [|c s IH]; cbn [contains split_head].
  - rewrite orb_false_r. intros Hpre. rewrite Hpre. now apply prefix_split.
  - destruct (String.prefix sep (String c s)) eqn:Hpre.
    + intros _. now apply prefix_split.
    + cbn [orb]. intros (rest & Hrest)%IH. exists rest.
      now rewrite append_cons, <- Hrest.
Qed.

Lemma split_head_absent sep s :
  contains sep s = false -> split_head sep s = s.
Proof.
  induction s as [|c s IH]; cbn [contains split_head].
  - now destruct (String.prefix sep "").
  - intros [-> Hs]%orb_false_elim. now rewrite (IH Hs).
Qed.

Lemma split_head_free sep s :
  sep <> "" -> contains sep (split_head sep s) = false.
Proof.
  intros Hsep. induction s as [|c s IH]; cbn [split_head].
  - destruct (String.prefix sep ""); cbn [contains];
      now rewrite (prefix_empty sep Hsep).
  - destruct (String.prefix sep (String c s)) eqn:Hpre.
    + cbn [contains]. now rewrite (prefix_empty sep Hsep).
    + cbn [contains]. rewrite IH, orb_false_r.
      destruct (String.prefix sep (String c (split_head sep s))) eqn:Hpre';
        [|reflexivity].
      destruct (split_head_prefix sep s) as (r & Hr).
      apply (prefix_app_r _ _ r) in Hpre'.
      rewrite append_cons, <- Hr in Hpre'. congruence.
Qed.

Lemma contains_suffix sep h t :
  contains sep t = true -> contains sep (h ++ t) = true.
Proof.
  intros Ht. induction h as [|c h IH]; [exact Ht|].
  rewrite append_cons. cbn [contains]. now rewrite IH, orb_true_r.
Qed.

Lemma contains_basename sep p :
  contains sep (basename p) = true -> contains sep p = true.
Proof.
  intros H. rewrite <- (rsplit_slash_app p). now apply contains_suffix.
Qed.

(** ** The watcher, path by path *)

(** X1.  The marker is looked for in the base name only.  For a path
    [d/x] whose last component [x] does not contain the marker, a creation
    and a deletion are each logged with exactly one message, chosen by
    [is_directory], also when the directory part [d] contains the marker;
    the file system is not consulted and the handler is unchanged. *)
Theorem plain_name_is_logged (fs : FileSystem) (self : FileAuditHandler)
    (d x dest : string) (isdir : bool) :
  has_slash x = false -> contains marker x = false ->
  let event := {| src_path := d ++ "/" ++ x; dest_path := dest;
                  is_directory := isdir |} in
  on_created fs self event
  = (self, [if isdir then DirectoryCreated (d ++ "/" ++ x)
            else FileCreated (d ++ "/" ++ x)]) /\
  on_deleted self event
  = (self, [if isdir then DirectoryDeleted (d ++ "/" ++ x)
            else FileDeleted (d ++ "/" ++ x)]).
Proof.
  intros Hx Hm event. unfold on_created, on_deleted. cbn [src_path is_directory event].
  rewrite (basename_join d x Hx), Hm. now destruct isdir.
Qed.

Lemma plain_name_is_logged_witness :
  let fs := {| fs_exists := fun _ => true; fs_isdir := fun _ => false |} in
  on_created fs init
    {| src_path := "/r/a.goutputstream-Q/notes.txt"; dest_path := "";
       is_directory := false |}
  = (init, [FileCreated "/r/a.goutputstream-Q/notes.txt"]) /\
  on_deleted init
    {| src_path := "/r/a.goutputstream-Q/notes.txt"; dest_path := "";
       is_directory := false |}
  = (init, [FileDeleted "/r/a.goutputstream-Q/notes.txt"]).
Proof.
  intros fs.
  exact (plain_name_is_logged fs init "/r/a.goutputstream-Q" "notes.txt" "" false
           eq_refl eq_refl).
Defined.

(** X2.  When [find_original_file] returns a path, this path exists, is
    not empty, contains no marker, and is the part of the temp path
    before its first marker: the temp path is the result, the marker and
    a rest.  For a path that begins with the marker the result is [None]
    whatever the file system holds, since the part before the marker is
    empty. *)
Theorem find_original_file_result (fs : FileSystem) :
  (forall temp_path original,
     find_original_file fs temp_path = Some original ->
     os_path_exists fs original = true /\
     original <> "" /\
     contains marker original = false /\
     (contains marker temp_path = true ->
        exists rest, temp_path = original ++ marker ++ rest) /\
     (contains marker temp_path = false -> original = temp_path)) /\
  (forall rest, find_original_file fs (marker ++ rest) = None).
Proof.
  split.
  - intros temp_path original. unfold find_original_file.
    destruct (os_path_exists fs (split_head marker temp_path)) eqn:Hex;
      [|discriminate].
    intros [= <-]. split; [exact Hex|]. split.
    { intros Hempty. rewrite Hempty in Hex. discriminate Hex. }
    split; [apply split_head_free; discriminate|]. split.
    + apply split_head_found.
    + apply split_head_absent.
  - intros rest. unfold find_original_file.
    assert (Hhead : split_head marker (marker ++ rest) = "")
      by (destruct rest; reflexivity).
    now rewrite Hhead.
Qed.

Lemma find_original_file_result_witness :
  let fs := {| fs_exists := fun p => String.eqb p "/r/foo"; fs_isdir := fun _ => false |} in
  os_path_exists fs "/r/foo" = true /\
  (exists rest, "/r/foo.goutputstream-X1" = "/r/foo" ++ marker ++ rest).
Proof.
  intros fs.
  destruct (proj1 (find_original_file_result fs)
              "/r/foo.goutputstream-X1" "/r/foo" eq_refl)
    as (Hex & _ & _ & Hsplit & _).
  split; [exact Hex | exact (Hsplit eq_refl)].
Defined.

(** X3.  Moves by the shape of their paths.  With last components [x] and
    [y] that contain no slash: a move inside one directory [d] is logged
    as a rename; a move between two different directories, written
    without a slash at their end, is logged as a move; and a move whose
    source name [x] contains the marker, such as the rename of an
    editor's temp file onto the original, is not logged at all.  None of
    them changes the handler. *)
Theorem on_moved_by_path (self : FileAuditHandler) (x y : string) (isdir : bool) :
  has_slash x = false -> has_slash y = false ->
  (contains marker x = false ->
   forall d,
     on_moved self {| src_path := d ++ "/" ++ x; dest_path := d ++ "/" ++ y;
                      is_directory := isdir |}
     = (self, [FileRenamed (d ++ "/" ++ x) (d ++ "/" ++ y)])) /\
  (contains marker x = false ->
   forall d1 d2, no_trailing_slash d1 -> no_trailing_slash d2 -> d1 <> d2 ->
     on_moved self {| src_path := d1 ++ "/" ++ x; dest_path := d2 ++ "/" ++ y;
                      is_directory := isdir |}
     = (self, [FileMoved (d1 ++ "/" ++ x) (d2 ++ "/" ++ y)])) /\
  (contains marker x = true ->
   forall d dest,
     on_moved self {| src_path := d ++ "/" ++ x; dest_path := dest;
                      is_directory := isdir |}
     = (self, [])).
Proof.
  intros Hx Hy. split; [|split]; intros Hm.
  - intros d. unfold on_moved. cbn [src_path dest_path].
    rewrite (basename_join d x Hx), Hm, (dirname_same_head d x y Hx Hy).
    now rewrite String.eqb_refl.
  - intros d1 d2 H1 H2 Hne. unfold on_moved. cbn [src_path dest_path].
    rewrite (basename_join d1 x Hx), Hm.
    rewrite (dirname_join d1 x H1 Hx), (dirname_join d2 y H2 Hy).
    apply String.eqb_neq in Hne. now rewrite Hne.
  - intros d dest. unfold on_moved. cbn [src_path].
    now rewrite (basename_join d x Hx), Hm.
Qed.

Lemma on_moved_by_path_witness :
  on_moved init {| src_path := "/r/a/x.txt"; dest_path := "/r/a/y.txt";
                   is_directory := false |}
  = (init, [FileRenamed "/r/a/x.txt" "/r/a/y.txt"]) /\
  on_moved init {| src_path := "/r/a/x.txt"; dest_path := "/r/b/x.txt";
                   is_directory := false |}
  = (init, [FileMoved "/r/a/x.txt" "/r/b/x.txt"]) /\
  on_moved init {| src_path := "/r/a/.goutputstream-Z9"; dest_path := "/r/a/x.txt";
                   is_directory := false |}
  = (init, []).
Proof.
  split; [|split].
  - exact (proj1 (on_moved_by_path init "x.txt" "y.txt" false eq_refl eq_refl)
             eq_refl "/r/a").
  - apply (proj1 (proj2 (on_moved_by_path init "x.txt" "x.txt" false eq_refl eq_refl))
             eq_refl "/r/a" "/r/b").
    + exists "a"%char. split; reflexivity.
    + exists "b"%char. split; reflexivity.
    + discriminate.
  - exact (proj2 (proj2 (on_moved_by_path init ".goutputstream-Z9" "" false
                           eq_refl eq_refl))
             eq_refl "/r/a" "/r/a/x.txt").
Defined.

(** ** The watcher over a sequence of notifications *)

Lemma dispatch_cases fs self n :
  (fst (dispatch fs self n) = self /\
   (forall temp original,
      ~ In (TempFileCreated temp original) (snd (dispatch fs self n))) /\
   (length (snd (dispatch fs self n)) <= 1)%nat) \/
  (exists temp,
     contains marker (basename temp) = true /\
     os_path_exists fs (split_head marker temp) = true /\
     dispatch fs self n
     = (set_temporary_file self temp (split_head marker temp),
        [TempFileCreated temp (split_head marker temp)])).
Proof.
  destruct n as [event|event|event|event]; cbn [dispatch].
  - unfold on_created, find_original_file.
    destruct (contains marker (basename (src_path event))) eqn:Hm.
    + destruct (os_path_exists fs (split_head marker (src_path event))) eqn:Hex.
      * right. exists (src_path event).
        now rewrite (os_path_exists_nonempty fs _ Hex).
      * left. cbn. repeat split; [tauto | lia].
    + left. destruct (is_directory event); cbn; repeat split; try lia;
        intros temp original [H|[]]; discriminate H.
  - left. unfold on_deleted.
    destruct (contains marker (basename (src_path event)));
      [|destruct (is_directory event)]; cbn; repeat split; try lia; try tauto;
      intros temp original [H|[]]; discriminate H.
  - left. unfold on_moved.
    destruct (contains marker (basename (src_path event)));
      [|destruct (String.eqb _ _)]; cbn; repeat split; try lia; try tauto;
      intros temp original [H|[]]; discriminate H.
  - left. cbn. repeat split; [tauto | lia].
Qed.

Lemma handle_all_cons self fs n ns :
  handle_all self ((fs, n) :: ns)
  = (fst (handle_all (fst (dispatch fs self n)) ns),
     (snd (dispatch fs self n) ++ snd (handle_all (fst (dispatch fs self n)) ns))%list).
Proof.
  cbn [handle_all]. destruct (dispatch fs self n) as [self' msgs].
  cbn [fst snd]. now destruct (handle_all self' ns).
Qed.

Lemma handle_all_app self ns1 ns2 :
  handle_all self (ns1 ++ ns2)
  = (fst (handle_all (fst (handle_all self ns1)) ns2),
     (snd (handle_all self ns1) ++ snd (handle_all (fst (handle_all self ns1)) ns2))%list).
Proof.
  revert self. induction ns1 as [|[fs n] ns1 IH]; intros self.
  - cbn [app handle_all fst snd]. now destruct (handle_all self ns2).
  - rewrite <- app_comm_cons, !handle_all_cons, IH. cbn [fst snd].
    now rewrite app_assoc.
Qed.

Lemma set_temporary_file_well_formed fs self temp :
  links_well_formed self ->
  contains marker (basename temp) = true ->
  os_path_exists fs (split_head marker temp) = true ->
  links_well_formed (set_temporary_file self temp (split_head marker temp)).
Proof.
  intros Hwf Hm Hex k v. cbn [set_temporary_file temporary_file_map].
  destruct (decide (temp = k)) as [<-|Hne].
  - rewrite lookup_insert_eq. intros [= <-].
    split; [reflexivity|]. split.
    { intros Hempty. rewrite Hempty in Hex. discriminate Hex. }
    split; [exact Hm|]. apply split_head_found. now apply contains_basename.
  - rewrite lookup_insert_ne by exact Hne. apply Hwf.
Qed.

Lemma handle_all_invariant ns : forall self,
  links_well_formed self ->
  links_well_formed (fst (handle_all self ns)) /\
  recently_created_files (fst (handle_all self ns)) = recently_created_files self /\
  last_modified_time (fst (handle_all self ns)) = last_modified_time self.
Proof.
  induction ns as [|[fs n] ns IH]; intros self Hwf; [now cbn|].
  rewrite handle_all_cons. cbn [fst].
  destruct (dispatch_cases fs self n) as [(Hsame & _) | (temp & Hm & Hex & Hrun)].
  - rewrite Hsame. now apply IH.
  - rewrite Hrun. cbn [fst].
    destruct (IH (set_temporary_file self temp (split_head marker temp))
                (set_temporary_file_well_formed fs self temp Hwf Hm Hex))
      as (H1 & H2 & H3).
    split; [exact H1 | split; [exact H2 | exact H3]].
Qed.

Lemma handle_all_links ns : forall self,
  links_well_formed self ->
  forall temp original,
    temporary_file_map (fst (handle_all self ns)) !! temp = Some original <->
    temporary_file_map self !! temp = Some original \/
    In (TempFileCreated temp original) (snd (handle_all self ns)).
Proof.
  induction ns as [|[fs n] ns IH]; intros self Hwf temp original.
  - cbn. tauto.
  - rewrite handle_all_cons. cbn [fst snd]. rewrite in_app_iff.
    destruct (dispatch_cases fs self n) as [(Hsame & Hnone & _) | (k & Hm & Hex & Hrun)].
    + rewrite Hsame, (IH self Hwf). specialize (Hnone temp original). tauto.
    + rewrite Hrun. cbn [fst snd].
      rewrite (IH _ (set_temporary_file_well_formed fs self k Hwf Hm Hex)).
      cbn [set_temporary_file temporary_file_map In].
      destruct (decide (k = temp)) as [->|Hne].
      * rewrite lookup_insert_eq. split.
        -- intros [[= <-] | Hlater]; [right; left; now left | tauto].
        -- intros [Hold | [[[= <-] | []] | Hlater]]; [|now left | tauto].
           left. f_equal. symmetry. now apply (Hwf temp original).
      * rewrite lookup_insert_ne by exact Hne. split; [tauto|].
        intros [Hold | [[[= Heq _] | []] | Hlater]]; [tauto | contradiction | tauto].
Qed.

Lemma handle_all_length ns : forall self,
  (length (snd (handle_all self ns)) <= length ns)%nat.
Proof.
  induction ns as [|[fs n] ns IH]; intros self; [reflexivity|].
  rewrite handle_all_cons. cbn [snd length]. rewrite length_app.
  specialize (IH (fst (dispatch fs self n))).
  destruct (dispatch_cases fs self n) as [(_ & _ & Hlen) | (k & _ & _ & Hrun)].
  - lia.
  - rewrite Hrun in *. cbn [fst snd length] in *. lia.
Qed.

Lemma init_well_formed : links_well_formed init.
Proof. intros temp original. cbn. now rewrite lookup_empty. Qed.

(** X4.  What holds of the handler after any sequence of notifications:
    every link of [temporary_file_map] leads from a path whose base name
    contains the marker to the part of this path before its first
    marker, which is not empty; and the two other dictionaries of
    [__init__] are never written, they stay empty. *)
Theorem handler_invariant (ns : list (FileSystem * notification)) :
  links_well_formed (fst (handle_all init ns)) /\
  recently_created_files (fst (handle_all init ns)) = ∅ /\
  last_modified_time (fst (handle_all init ns)) = ∅.
Proof. exact (handle_all_invariant ns init init_well_formed). Qed.

(** X5.  The links and the log agree: after any sequence of
    notifications the handler holds a link from [temp] to [original]
    exactly when the log has the correlation message of [temp] and
    [original]. *)
Theorem links_match_log (ns : list (FileSystem * notification))
    (temp original : string) :
  temporary_file_map (fst (handle_all init ns)) !! temp = Some original <->
  In (TempFileCreated temp original) (snd (handle_all init ns)).
Proof.
  rewrite (handle_all_links ns init init_well_formed).
  cbn [init temporary_file_map]. rewrite lookup_empty. split; [|tauto].
  intros [H|H]; [discriminate H | exact H].
Qed.

(** X6.  Links are never removed or changed: whatever notifications
    follow, also the deletion or the move of the temp file itself, every
    link the handler holds stays as it is.  And a sequence of
    notifications logs at most one message per notification. *)
Theorem links_are_kept (ns later : list (FileSystem * notification)) :
  temporary_file_map (fst (handle_all init ns))
    ⊆ temporary_file_map (fst (handle_all init (ns ++ later))) /\
  (length (snd (handle_all init ns)) <= length ns)%nat.
Proof.
  split; [|apply handle_all_length].
  apply map_subseteq_spec. intros temp original Hlink.
  rewrite handle_all_app. cbn [fst].
  apply (handle_all_links later);
    [apply (handle_all_invariant ns init init_well_formed) | now left].
Qed.

Example link_survives_deletion :
  let fs := {| fs_exists := fun p => String.eqb p "/r/foo"; fs_isdir := fun _ => false |} in
  let temp := {| src_path := "/r/foo.goutputstream-X1"; dest_path := "/r/foo";
                 is_directory := false |} in
  snd (handle_all init [(fs, Created temp); (fs, Moved temp); (fs, Deleted temp)])
  = [TempFileCreated "/r/foo.goutputstream-X1" "/r/foo"] /\
  temporary_file_map
    (fst (handle_all init [(fs, Created temp); (fs, Moved temp); (fs, Deleted temp)]))
    !! "/r/foo.goutputstream-X1" = Some "/r/foo".
Proof. cbv zeta. split; [reflexivity|]. vm_compute. reflexivity. Qed.

(** ** The process monitor over several cycles *)

Lemma for_each_fault {X} (body : X -> logged unit) xs x e :
  In x xs -> outcome (body x) = Raised e ->
  exists y e', In y xs /\ outcome (body y) = Raised e' /\
               outcome (for_each xs body) = Raised e'.
Proof.
  induction xs as [|z xs IH]; [intros []|]. intros Hin Hx.
  cbn [for_each]. unfold Logged.bind.
  destruct (body z) as [ms [[]|e0]] eqn:Hz.
  - destruct Hin as [-> | Hin].
    { rewrite Hz in Hx. discriminate Hx. }
    destruct (IH Hin Hx) as (y & e' & Hy & Hbody & Hout).
    exists y, e'. split; [now right|]. split; [exact Hbody|].
    destruct (for_each xs body) as [ms' r']. exact Hout.
  - exists z, e0. split; [now left|]. now rewrite Hz.
Qed.

Section ProcessMonitorRuns.
Context `{SetIteration}.

Lemma set_iter_empty : set_iter ∅ = [].
Proof.
  apply Permutation_nil_r. rewrite (set_iter_perm ∅). now rewrite elements_empty.
Qed.

Lemma current_pids_digits proc : all_digits (current_pids proc).
Proof.
  intros pid Hpid. unfold current_pids in Hpid.
  apply elem_of_list_to_set, list_elem_of_filter in Hpid as [Hd _].
  now apply Is_true_true.
Qed.

Lemma cycle_outcome proc known next :
  outcome (monitor_processes_cycle proc known) = Returned next ->
  next = current_pids proc.
Proof.
  unfold monitor_processes_cycle, Logged.bind.
  destruct (for_each _ (report_new_pid proc)) as [ms [[]|e]]; [|discriminate].
  destruct (for_each _ (fun pid => info (ProcessTerminated pid))) as [ms' [[]|e]];
    [|discriminate].
  cbn. now intros [= <-].
Qed.

Lemma messages_about_one_terminated pid pids :
  List.NoDup pids -> In pid pids ->
  messages_about pid (map ProcessTerminated pids) = [ProcessTerminated pid].
Proof.
  induction 1 as [|q pids Hq Hnodup IH]; [intros []|].
  unfold messages_about. cbn [map List.filter about].
  fold (messages_about pid (map ProcessTerminated pids)).
  intros [-> | Hin].
  - rewrite String.eqb_refl. now rewrite (messages_about_terminated pid pids Hq).
  - assert (Hne : q <> pid) by (intros ->; contradiction).
    apply String.eqb_neq in Hne. rewrite Hne. now apply IH.
Qed.

Lemma cycle_messages_about_removed proc known pid :
  only_vanished proc (new_pids (current_pids proc) known) ->
  pid ∈ known -> pid ∉ current_pids proc ->
  messages_about pid (messages (monitor_processes_cycle proc known))
  = [ProcessTerminated pid].
Proof.
  intros Honly Hknown Hgone. rewrite (cycle_completes proc known Honly).
  cbn [messages fst]. unfold messages_about. rewrite List.filter_app.
  fold (messages_about pid (logs_of (report_new_pid proc)
          (set_iter (new_pids (current_pids proc) known)))).
  fold (messages_about pid (map ProcessTerminated
          (set_iter (terminated_pids (current_pids proc) known)))).
  rewrite messages_about_other.
  2:{ rewrite set_iter_elem. unfold new_pids. rewrite elem_of_difference. tauto. }
  apply messages_about_one_terminated; [apply set_iter_NoDup|].
  apply set_iter_elem. unfold terminated_pids. now apply elem_of_difference.
Qed.

Lemma cycle_messages_about_absent proc known pid :
  (pid ∈ known <-> pid ∈ current_pids proc) ->
  messages_about pid (messages (monitor_processes_cycle proc known)) = [].
Proof.
  intros Hsame. apply messages_about_none. intros msg Hmsg.
  apply cycle_message in Hmsg
    as [(q & content & Hq & _ & ->) | (q & Hq & ->)].
  - rewrite start_message_about. apply String.eqb_neq. intros ->.
    unfold new_pids in Hq. rewrite elem_of_difference in Hq. tauto.
  - cbn [about]. apply String.eqb_neq. intros ->.
    unfold terminated_pids in Hq. rewrite elem_of_difference in Hq. tauto.
Qed.

Lemma cycle_messages_about_vanished proc known pid :
  read_cmdline proc pid = Raised FileNotFoundError ->
  pid ∈ current_pids proc ->
  messages_about pid (messages (monitor_processes_cycle proc known)) = [].
Proof.
  intros Hread Hcur. apply messages_about_none. intros msg Hmsg.
  apply cycle_message in Hmsg
    as [(q & content & _ & Hreadq & ->) | (q & Hq & ->)].
  - rewrite start_message_about. apply String.eqb_neq. intros ->. congruence.
  - cbn [about]. apply String.eqb_neq. intros ->.
    unfold terminated_pids in Hq. rewrite elem_of_difference in Hq. tauto.
Qed.

Lemma run_two_cycles proc1 proc2 known :
  only_vanished proc1 (new_pids (current_pids proc1) known) ->
  messages (monitor_processes_from known [proc1; proc2])
  = (messages (monitor_processes_cycle proc1 known)
     ++ messages (monitor_processes_cycle proc2 (current_pids proc1)))%list.
Proof.
  intros Honly. cbn [monitor_processes_from].
  rewrite (cycle_completes proc1 known Honly). cbn [Logged.bind].
  destruct (monitor_processes_cycle proc2 (current_pids proc1)) as [ms [k|e]];
    cbn; now rewrite ?app_nil_r.
Qed.
End ProcessMonitorRuns.

Lemma report_new_pid_raises proc pid e :
  outcome (report_new_pid proc pid) = Raised e ->
  read_cmdline proc pid = Raised e /\ e <> FileNotFoundError.
Proof.
  destruct (read_cmdline proc pid) as [content|e0] eqn:Hread.
  - now rewrite (report_new_pid_returned proc pid content Hread).
  - destruct (exn_eqb e0 FileNotFoundError) eqn:He.
    + destruct e0; try discriminate He.
      now rewrite (report_new_pid_vanished proc pid Hread).
    + assert (Hne : e0 <> FileNotFoundError) by (intros ->; discriminate He).
      rewrite (report_new_pid_fault proc pid e0 Hread Hne). cbn.
      now intros [= <-].
Qed.

(** X7.  PIDs that are not new.  A PID that is in the previous snapshot
    and in the current one (a process that goes on), or in neither, has
    no message in the cycle.  A PID of the previous snapshot that is
    missing from the current one has exactly one message, its
    termination message, in every cycle that no fault of a read ends. *)
Theorem kept_and_removed_pids `{SetIteration} (proc : ProcTable)
    (known : gset string) (pid : string) :
  ((pid ∈ known <-> pid ∈ current_pids proc) ->
     messages_about pid (messages (monitor_processes_cycle proc known)) = []) /\
  (pid ∈ known -> pid ∉ current_pids proc ->
   only_vanished proc (new_pids (current_pids proc) known) ->
     messages_about pid (messages (monitor_processes_cycle proc known))
     = [ProcessTerminated pid]).
Proof.
  split.
  - apply cycle_messages_about_absent.
  - intros Hknown Hgone Honly. now apply cycle_messages_about_removed.
Qed.

Lemma kept_and_removed_pids_witness :
  let proc := {| listdir := ["1"; "42"];
                 read_cmdline := fun pid => Returned "/sbin/init" |} in
  let known : gset string := {["1"; "77"]} in
  messages_about "1" (messages (monitor_processes_cycle proc known)) = [] /\
  messages_about "77" (messages (monitor_processes_cycle proc known))
  = [ProcessTerminated "77"].
Proof.
  intros proc known. split.
  - apply (proj1 (kept_and_removed_pids proc known "1")).
    split; intros _; vm_compute; reflexivity.
  - apply (proj2 (kept_and_removed_pids proc known "77")).
    + vm_compute. reflexivity.
    + vm_compute. discriminate.
    + intros pid e _. cbn. discriminate.
Defined.

(** X8.  How a cycle ends.  When every read of an added PID succeeds or
    raises [FileNotFoundError], the cycle ends normally and hands the
    current snapshot on as the next [known_pids], whatever the previous
    one was.  When a read of an added PID raises another exception, the
    cycle raises such an exception: no termination message is logged in
    this cycle, and the loop ends there, without looking at any later
    state of the process table. *)
Theorem cycle_end `{SetIteration} (proc : ProcTable) (known : gset string) :
  (only_vanished proc (new_pids (current_pids proc) known) ->
     outcome (monitor_processes_cycle proc known) = Returned (current_pids proc)) /\
  (forall pid e,
     pid ∈ new_pids (current_pids proc) known ->
     read_cmdline proc pid = Raised e -> e <> FileNotFoundError ->
     exists e',
       e' <> FileNotFoundError /\
       outcome (monitor_processes_cycle proc known) = Raised e' /\
       (forall q, ~ In (ProcessTerminated q)
                       (messages (monitor_processes_cycle proc known))) /\
       (forall later,
          monitor_processes_from known (proc :: later)
          = (messages (monitor_processes_cycle proc known), Raised e'))).
Proof.
  split.
  - intros Honly. now rewrite (cycle_completes proc known Honly).
  - intros pid e Hpid Hread He.
    destruct (for_each_fault (report_new_pid proc)
                (set_iter (new_pids (current_pids proc) known)) pid e)
      as (y & e' & _ & Hy & Hout).
    { now apply set_iter_elem. }
    { now rewrite (report_new_pid_fault proc pid e Hread He). }
    apply report_new_pid_raises in Hy as [_ He'].
    exists e'. split; [exact He'|].
    assert (Hcycle : monitor_processes_cycle proc known
                     = (messages (for_each (set_iter (new_pids (current_pids proc) known))
                                    (report_new_pid proc)), Raised e')).
    { unfold monitor_processes_cycle, Logged.bind.
      destruct (for_each _ (report_new_pid proc)) as [ms r].
      cbn in Hout. now subst r. }
    split; [now rewrite Hcycle|]. split.
    + intros q. rewrite Hcycle. cbn [messages fst]. intros Hin.
      apply for_each_message in Hin as (p & _ & Hmsg).
      apply report_new_pid_message in Hmsg as (content & _ & Heq).
      symmetry in Heq. now apply start_message_not_terminated in Heq.
    + intros later. cbn [monitor_processes_from]. now rewrite Hcycle.
Qed.

Lemma cycle_end_witness :
  let proc := {| listdir := ["1"; "42"];
                 read_cmdline := fun pid =>
                   if String.eqb pid "42" then Raised (OtherError "UnicodeDecodeError")
                   else Returned "/sbin/init" |} in
  let quiet := {| listdir := ["1"];
                  read_cmdline := fun pid => Returned "/sbin/init" |} in
  outcome (monitor_processes_cycle quiet {["7"]}) = Returned (current_pids quiet) /\
  exists e', outcome (monitor_processes_cycle proc {["7"]}) = Raised e' /\
             ~ In (ProcessTerminated "7")
                  (messages (monitor_processes_cycle proc {["7"]})).
Proof.
  intros proc quiet. split.
  - apply (proj1 (cycle_end quiet {["7"]})). intros pid e _. cbn. discriminate.
  - destruct (proj2 (cycle_end proc {["7"]}) "42" (OtherError "UnicodeDecodeError"))
      as (e' & _ & Hout & Hnone & _).
    + vm_compute. reflexivity.
    + reflexivity.
    + discriminate.
    + exists e'. split; [exact Hout | apply Hnone].
Defined.

(** X9.  A process table that does not change is reported once: a cycle
    whose previous snapshot is the current one logs nothing and keeps the
    snapshot, and so, after a first cycle that no fault of a read ends, a
    second cycle over the same table adds no message. *)
Theorem unchanged_table_is_silent `{SetIteration} (proc : ProcTable) :
  monitor_processes_cycle proc (current_pids proc)
  = ([], Returned (current_pids proc)) /\
  (forall known,
     only_vanished proc (new_pids (current_pids proc) known) ->
     messages (monitor_processes_from known [proc; proc])
     = messages (monitor_processes_cycle proc known)).
Proof.
  assert (Hsilent : monitor_processes_cycle proc (current_pids proc)
                    = ([], Returned (current_pids proc))).
  { unfold monitor_processes_cycle, new_pids, terminated_pids.
    rewrite difference_diag_L, set_iter_empty. reflexivity. }
  split; [exact Hsilent|].
  intros known Honly. rewrite (run_two_cycles proc proc known Honly), Hsilent.
  cbn [messages fst]. now rewrite app_nil_r.
Qed.

Lemma unchanged_table_is_silent_witness :
  let proc := {| listdir := ["1"; "42"];
                 read_cmdline := fun pid => Returned "/sbin/init" |} in
  messages (monitor_processes_from ∅ [proc; proc])
  = messages (monitor_processes_cycle proc ∅).
Proof.
  intros proc.
  apply (proj2 (unchanged_table_is_silent proc) ∅).
  intros pid e _. cbn. discriminate.
Defined.

Lemma run_messages_digits `{SetIteration} procs : forall known msg pid,
  all_digits known ->
  In msg (messages (monitor_processes_from known procs)) ->
  about pid msg = true -> isdigit pid = true.
Proof.
  induction procs as [|proc procs IH]; intros known msg pid Hknown; [intros []|].
  cbn [monitor_processes_from].
  intros [Hin | (next & Hnext & Hin)]%bind_messages Habout.
  - apply cycle_message in Hin
      as [(q & content & Hq & _ & ->) | (q & Hq & ->)].
    + rewrite start_message_about in Habout. apply String.eqb_eq in Habout as <-.
      apply (current_pids_digits proc).
      unfold new_pids in Hq. now apply elem_of_difference in Hq as [Hq _].
    + cbn [about] in Habout. apply String.eqb_eq in Habout as <-.
      apply Hknown. unfold terminated_pids in Hq.
      now apply elem_of_difference in Hq as [Hq _].
  - apply cycle_outcome in Hnext as ->.
    eapply IH; [apply current_pids_digits | exact Hin | exact Habout].
Qed.

(** X10.  Only entries of [/proc] whose name [isdigit] accepts are ever
    reported: in the whole log of [monitor_processes], over any number of
    cycles, every start or termination message names a PID that is a
    string of digits. *)
Theorem only_digit_names_reported `{SetIteration} (procs : list ProcTable)
    (msg : message) (pid : string) :
  In msg (messages (monitor_processes procs)) ->
  about pid msg = true -> isdigit pid = true.
Proof.
  apply run_messages_digits. intros q Hq. now apply not_elem_of_empty in Hq.
Qed.

Lemma only_digit_names_reported_witness :
  isdigit "42" = true.
Proof.
  apply (only_digit_names_reported
           [{| listdir := ["42"; "self"; "net"];
               read_cmdline := fun pid => Returned "sshd" |}]
           (ProcessStarted "42" "sshd") "42").
  - vm_compute. now left.
  - reflexivity.
Defined.

(** X11.  A process that is gone before its command line is read gets no
    start message, but it is in the snapshot: when it is missing from the
    next listing, its termination is reported.  Over the two cycles the
    log then holds a termination message for the PID and no start message
    (both cycles without another fault of a read). *)
Theorem vanished_then_terminated `{SetIteration} (proc1 proc2 : ProcTable)
    (known : gset string) (pid : string) :
  pid ∈ current_pids proc1 ->
  read_cmdline proc1 pid = Raised FileNotFoundError ->
  pid ∉ current_pids proc2 ->
  only_vanished proc1 (new_pids (current_pids proc1) known) ->
  only_vanished proc2 (new_pids (current_pids proc2) (current_pids proc1)) ->
  messages_about pid (messages (monitor_processes_from known [proc1; proc2]))
  = [ProcessTerminated pid].
Proof.
  intros Hcur Hread Hgone Honly1 Honly2.
  rewrite (run_two_cycles proc1 proc2 known Honly1).
  unfold messages_about. rewrite List.filter_app.
  fold (messages_about pid (messages (monitor_processes_cycle proc1 known))).
  fold (messages_about pid
          (messages (monitor_processes_cycle proc2 (current_pids proc1)))).
  rewrite (cycle_messages_about_vanished proc1 known pid Hread Hcur).
  now rewrite (cycle_messages_about_removed proc2 (current_pids proc1) pid Honly2 Hcur Hgone).
Qed.

Lemma vanished_then_terminated_witness :
  let proc1 := {| listdir := ["1"; "99"];
                  read_cmdline := fun pid =>
                    if String.eqb pid "99" then Raised FileNotFoundError
                    else Returned "/sbin/init" |} in
  let proc2 := {| listdir := ["1"];
                  read_cmdline := fun pid => Returned "/sbin/init" |} in
  messages_about "99" (messages (monitor_processes [proc1; proc2]))
  = [ProcessTerminated "99"].
Proof.
  intros proc1 proc2.
  apply (vanished_then_terminated proc1 proc2 ∅ "99").
  - vm_compute. reflexivity.
  - reflexivity.
  - vm_compute. discriminate.
  - intros pid e _. cbn [read_cmdline proc1].
    destruct (String.eqb pid "99"); congruence.
  - intros pid e _. cbn. discriminate.
Defined.

(** ** The command line of a start message *)

Lemma replace_char_free old new s :
  Ascii.eqb new old = false ->
  all_chars (fun c => negb (Ascii.eqb c old)) (replace_char old new s) = true.
Proof.
  intros Hne. induction s as [|c s IH]; [reflexivity|].
  cbn [replace_char all_chars]. rewrite IH, andb_true_r.
  destruct (Ascii.eqb c old) eqn:Hc; [now rewrite Hne | now rewrite Hc].
Qed.

Lemma lstrip_all P Q s :
  all_chars Q s = true -> all_chars Q (lstrip P s) = true.
Proof.
  induction s as [|c s IH]; [trivial|]. cbn [lstrip].
  destruct (P c); [|trivial]. cbn [all_chars]. intros [_ Hs]%andb_prop. now apply IH.
Qed.

Lemma rstrip_all P Q s :
  all_chars Q s = true -> all_chars Q (rstrip P s) = true.
Proof.
  induction s as [|c s IH]; [trivial|]. cbn [rstrip all_chars].
  intros [Hc Hs]%andb_prop. specialize (IH Hs).
  destruct (rstrip P s) as [|b rest].
  - destruct (P c); [reflexivity|]. cbn. now rewrite Hc.
  - cbn [all_chars] in *. now rewrite Hc, IH.
Qed.

Lemma lstrip_first P s c :
  first_char (lstrip P s) = Some c -> P c = false.
Proof.
  induction s as [|a s IH]; [discriminate|]. cbn [lstrip].
  destruct (P a) eqn:Ha; [exact IH|]. cbn. now intros [= <-].
Qed.

Lemma rstrip_first P s c :
  first_char s = Some c -> P c = false -> first_char (rstrip P s) = Some c.
Proof.
  destruct s as [|a s]; [discriminate|]. cbn [first_char rstrip].
  intros [= ->] Hc. destruct (rstrip P s); [now rewrite Hc | reflexivity].
Qed.

Lemma rstrip_last P s c :
  last_char (rstrip P s) = Some c -> P c = false.
Proof.
  revert c. induction s as [|a s IH]; intros c; [discriminate|]. cbn [rstrip].
  destruct (rstrip P s) as [|b rest] eqn:Hrest.
  - destruct (P a) eqn:Ha; [discriminate|]. cbn. now intros [= <-].
  - intros Hlast. apply IH. exact Hlast.
Qed.

Lemma last_char_nonempty s : s <> "" -> exists c, last_char s = Some c.
Proof.
  induction s as [|a s IH]; [congruence|]. intros _.
  destruct s as [|b s]; [now exists a|].
  destruct IH as (c & Hc); [discriminate|]. now exists c.
Qed.

Lemma strip_shape s :
  strip s <> "" ->
  (exists c, first_char (strip s) = Some c /\ Py_UNICODE_ISSPACE c = false) /\
  (exists c, last_char (strip s) = Some c /\ Py_UNICODE_ISSPACE c = false).
Proof.
  unfold strip. intros Hne. split.
  - destruct (lstrip Py_UNICODE_ISSPACE s) as [|a t] eqn:Hl; [now destruct Hne|].
    exists a.
    assert (Ha : Py_UNICODE_ISSPACE a = false)
      by (apply (lstrip_first _ s); now rewrite Hl).
    split; [now apply rstrip_first | exact Ha].
  - destruct (last_char_nonempty _ Hne) as (c & Hc). exists c.
    split; [exact Hc | now apply rstrip_last in Hc].
Qed.

(** X12.  The command of a start message: whenever a cycle logs that
    process [pid] started with command [cmd], [cmd] is what line 71 makes
    of the content of the process's [cmdline]; it is not empty, holds no
    NUL character, and neither begins nor ends with white space. *)
Theorem started_command_is_clean `{SetIteration} (proc : ProcTable)
    (known : gset string) (pid cmd : string) :
  In (ProcessStarted pid cmd) (messages (monitor_processes_cycle proc known)) ->
  (exists content, read_cmdline proc pid = Returned content /\
                   cmd = strip (replace_char "000" " " content)) /\
  cmd <> "" /\
  all_chars not_nul cmd = true /\
  (exists c, first_char cmd = Some c /\ Py_UNICODE_ISSPACE c = false) /\
  (exists c, last_char cmd = Some c /\ Py_UNICODE_ISSPACE c = false).
Proof.
  intros Hin.
  apply cycle_message in Hin
    as [(q & content & _ & Hread & Heq) | (q & _ & Heq)]; [|discriminate Heq].
  unfold start_message in Heq.
  destruct (strip (replace_char "000" " " content)) as [|a t] eqn:Hcmd;
    [discriminate Heq|].
  injection Heq as <- ->.
  assert (Hne : strip (replace_char "000" " " content) <> "")
    by (rewrite Hcmd; discriminate).
  rewrite <- Hcmd. split; [now exists content|]. split; [exact Hne|].
  split; [|now apply strip_shape].
  unfold strip. apply rstrip_all, lstrip_all.
  now apply (replace_char_free "000" " ").
Qed.

Lemma started_command_is_clean_witness :
  all_chars not_nul "nginx -g daemon off;" = true.
Proof.
  apply (started_command_is_clean
           {| listdir := ["7"];
              read_cmdline := fun pid =>
                Returned (String "n" (String "g" (String "i" (String "n" (String "x"
                  (String "000" (String "-" (String "g" (String "000"
                  ("daemon off;" ++ String "000" "")))))))))) |}
           ∅ "7" "nginx -g daemon off;").
  vm_compute. now left.
Defined.

(** ** Addresses of any length *)

Lemma hex_digit_value_range c : 0 <= hex_digit_value c < 16.
Proof. by_cases_on_char c. Qed.

Lemma hex_digit_leading c :
  is_hex_digit c = true -> Ascii.eqb c "0" = false -> 1 <= hex_digit_value c.
Proof. by_cases_on_char c. Qed.

Lemma hex_value_from_lower s : forall acc,
  0 <= acc -> acc * 16 ^ Z.of_nat (String.length s) <= hex_value_from acc s.
Proof.
  induction s as [|c s IH]; intros acc Hacc.
  - cbn [String.length hex_value_from]. change (16 ^ Z.of_nat 0) with 1. lia.
  - cbn [String.length hex_value_from].
    pose proof (hex_digit_value_range c) as Hc.
    rewrite Nat2Z.inj_succ, Z.pow_succ_r by lia.
    assert (Hpow : 0 < 16 ^ Z.of_nat (String.length s)) by (apply Z.pow_pos_nonneg; lia).
    specialize (IH (acc * 16 + hex_digit_value c) ltac:(lia)). nia.
Qed.

(** X13.  Strings of hexadecimal digits of any length.  [hex_to_ip]
    decodes such a string whenever its value fits 32 bits, so also a
    string that is too short or has zeros in front of more than eight
    digits; when the value does not fit, [struct.pack] raises
    [struct.error], which is no [ValueError] and leaves [hex_to_ip]: this
    is so for every string of nine or more digits that does not begin
    with 0. *)
Theorem hex_to_ip_hex_digits (s : string) :
  s <> "" -> all_chars is_hex_digit s = true ->
  (hex_value s <= 4294967295 ->
     hex_to_ip s
     = Returned (dotted_quad (hex_value s mod 256) (hex_value s / 256 mod 256)
                   (hex_value s / 65536 mod 256) (hex_value s / 16777216 mod 256))) /\
  (4294967295 < hex_value s -> hex_to_ip s = Raised StructError) /\
  ((9 <= String.length s)%nat ->
   (forall c, first_char s = Some c -> Ascii.eqb c "0" = false) ->
   hex_to_ip s = Raised StructError).
Proof.
  intros Hne Hall.
  assert (Hint : int16 s = Returned (hex_value s)) by now apply int16_hex_digits.
  assert (Hpos : 0 <= hex_value s).
  { pose proof (hex_value_from_lower s 0 ltac:(lia)). unfold hex_value. lia. }
  assert (Hbig : 4294967295 < hex_value s -> hex_to_ip s = Raised StructError).
  { intros Hlarge. unfold hex_to_ip. rewrite Hint.
    cbn [mbind result_bind Py.bind]. unfold struct_pack_lt_L.
    replace (hex_value s <=? 4294967295) with false by (symmetry; apply Z.leb_gt; lia).
    now rewrite andb_false_r. }
  split; [|split; [exact Hbig|]].
  - intros Hfit. unfold hex_to_ip. rewrite Hint.
    cbn [mbind result_bind Py.bind]. now rewrite pack_bytes by lia.
  - intros Hlen Hfirst. apply Hbig.
    destruct s as [|c s]; [congruence|].
    cbn [all_chars] in Hall. apply andb_prop in Hall as [Hc _].
    pose proof (hex_digit_leading c Hc (Hfirst c eq_refl)) as Hlead.
    cbn [String.length] in Hlen.
    unfold hex_value. cbn [hex_value_from].
    pose proof (hex_value_from_lower s (0 * 16 + hex_digit_value c) ltac:(lia)) as Hlow.
    assert (Hpow : 16 ^ 8 <= 16 ^ Z.of_nat (String.length s))
      by (apply Z.pow_le_mono_r; lia).
    change (16 ^ 8) with 4294967296 in Hpow. nia.
Qed.

Lemma hex_to_ip_hex_digits_witness :
  hex_to_ip "00000000000100007F" = Returned "127.0.0.1" /\
  hex_to_ip "1000000000" = Raised StructError.
Proof.
  split.
  - apply (proj1 (hex_to_ip_hex_digits "00000000000100007F"
                    ltac:(discriminate) eq_refl)).
    vm_compute. discriminate.
  - apply (proj2 (proj2 (hex_to_ip_hex_digits "1000000000"
                           ltac:(discriminate) eq_refl))).
    + cbn. lia.
    + intros c [= <-]. reflexivity.
Defined.

(** ** Lines of a connection table *)

Lemma flush_word_nonempty w : w <> "" -> flush_word w = [w].
Proof. now destruct w. Qed.

Lemma split_whitespace_word w : forall acc t,
  all_chars not_space w = true ->
  split_whitespace_from acc (w ++ t) = split_whitespace_from (acc ++ w) t.
Proof.
  induction w as [|c w IH]; intros acc t.
  - intros _. now rewrite append_empty_r.
  - cbn [all_chars]. intros [Hc Hw]%andb_prop.
    rewrite append_cons. cbn [split_whitespace_from].
    unfold not_space in Hc. apply negb_true_iff in Hc. rewrite Hc.
    rewrite (IH _ _ Hw), append_assoc. reflexivity.
Qed.

Lemma split_whitespace_lead g t :
  all_chars Py_UNICODE_ISSPACE g = true ->
  split_whitespace_from "" (g ++ t) = split_whitespace_from "" t.
Proof.
  induction g as [|c g IH]; [reflexivity|]. cbn [all_chars].
  intros [Hc Hg]%andb_prop. rewrite append_cons. cbn [split_whitespace_from].
  rewrite Hc. cbn [flush_word app]. now apply IH.
Qed.

Lemma split_whitespace_gap g acc t :
  g <> "" -> all_chars Py_UNICODE_ISSPACE g = true ->
  split_whitespace_from acc (g ++ t)
  = (flush_word acc ++ split_whitespace_from "" t)%list.
Proof.
  destruct g as [|c g]; [congruence|]. intros _. cbn [all_chars].
  intros [Hc Hg]%andb_prop. rewrite append_cons. cbn [split_whitespace_from].
  rewrite Hc. now rewrite (split_whitespace_lead g t Hg).
Qed.

Lemma split_whitespace_end acc t :
  field_end t ->
  split_whitespace_from acc t = (flush_word acc ++ split_whitespace_from "" t)%list.
Proof.
  destruct t as [|c t]; cbn [field_end first_char split_whitespace_from].
  - intros _. now rewrite app_nil_r.
  - intros ->. reflexivity.
Qed.

Lemma table_line_field lead slot gap field rest :
  all_chars Py_UNICODE_ISSPACE lead = true ->
  is_word slot ->
  gap <> "" -> all_chars Py_UNICODE_ISSPACE gap = true ->
  is_word field -> field_end rest ->
  nth_error (split_whitespace (lead ++ slot ++ gap ++ field ++ rest)) 1 = Some field.
Proof.
  intros Hlead [Hslot Hslotw] Hgap Hgapw [Hfield Hfieldw] Hrest.
  unfold split_whitespace.
  rewrite (split_whitespace_lead lead _ Hlead).
  rewrite (split_whitespace_word slot "" _ Hslotw).
  change ("" ++ slot) with slot.
  rewrite (split_whitespace_gap gap slot _ Hgap Hgapw).
  rewrite (split_whitespace_word field "" _ Hfieldw).
  change ("" ++ field) with field.
  rewrite (split_whitespace_end field rest Hrest).
  now rewrite (flush_word_nonempty slot Hslot), (flush_word_nonempty field Hfield).
Qed.

Lemma split_char_none sep s :
  all_chars (fun c => negb (Ascii.eqb c sep)) s = true -> split_char sep s = [s].
Proof.
  induction s as [|c s IH]; [reflexivity|]. cbn [all_chars split_char].
  intros [Hc Hs]%andb_prop. apply negb_true_iff in Hc. now rewrite Hc, (IH Hs).
Qed.

Lemma split_char_join sep a b :
  all_chars (fun c => negb (Ascii.eqb c sep)) a = true ->
  split_char sep (a ++ String sep b) = a :: split_char sep b.
Proof.
  induction a as [|c a IH].
  - intros _. change ("" ++ String sep b) with (String sep b).
    cbn [split_char]. now rewrite Ascii.eqb_refl.
  - cbn [all_chars]. intros [Hc Ha]%andb_prop. apply negb_true_iff in Hc.
    rewrite append_cons. cbn [split_char]. now rewrite Hc, (IH Ha).
Qed.

Lemma split_endpoint addr port :
  all_chars not_colon addr = true -> all_chars not_colon port = true ->
  unpack2 (split_char ":" (addr ++ ":" ++ port)) = Returned (addr, port).
Proof.
  intros Ha Hp. change (":" ++ port) with (String ":" port).
  rewrite (split_char_join ":" addr port Ha), (split_char_none ":" port Hp).
  reflexivity.
Qed.

Lemma hex_digit_not_colon c : is_hex_digit c = true -> not_colon c = true.
Proof. by_cases_on_char c. Qed.

Lemma hex_digit_not_space c : is_hex_digit c = true -> not_space c = true.
Proof. by_cases_on_char c. Qed.

Lemma port_value port :
  well_formed_port port ->
  int16 port = Returned (hex_value port) /\ 0 <= hex_value port <= 65535.
Proof.
  intros [Hlen Hall]. split.
  - apply int16_hex_digits; [|exact Hall]. destruct port; [cbn in Hlen; lia | discriminate].
  - destruct port as [|c1 [|c2 [|c3 [|c4 [|c5 s]]]]];
      cbn [String.length] in Hlen; try lia;
      cbn [all_chars] in Hall;
      repeat (apply andb_prop in Hall as [?Hc Hall]);
      repeat match goal with
             | H : is_hex_digit ?c = true |- _ =>
                 apply hex_digit_is_digit in H; destruct H as (_ & _ & _ & ?Hv)
             end;
      unfold hex_value; cbn [hex_value_from]; lia.
Qed.

(** What [report_connection] does once the endpoint field is known. *)
Lemma report_connection_endpoint proto conn addr port :
  nth_error (split_whitespace conn) 1 = Some (addr ++ ":" ++ port) ->
  all_chars not_colon addr = true -> all_chars not_colon port = true ->
  report_connection proto conn
  = Logged.bind (lift (hex_to_ip addr)) (fun ip =>
      Logged.bind (lift (int16 port)) (fun n => info (connection proto ip n))).
Proof.
  intros Hfield Ha Hp. unfold report_connection, index. rewrite Hfield.
  cbn [lift Logged.bind]. rewrite (split_endpoint addr port Ha Hp).
  cbn [app]. destruct (hex_to_ip addr) as [ip|e]; [|reflexivity].
  cbn. destruct (int16 port) as [n|e]; reflexivity.
Qed.

Lemma reportable_reports proto conn :
  reportable conn ->
  exists ip n, 0 <= n <= 65535 /\
    report_connection proto conn = ([connection proto ip n], Returned tt).
Proof.
  intros (addr & port & Hfield & Haddr & Hport).
  destruct (port_value port Hport) as [Hint Hrange].
  exists (dotted_quad (hex_byte addr 3) (hex_byte addr 2) (hex_byte addr 1) (hex_byte addr 0)),
         (hex_value port).
  split; [exact Hrange|].
  rewrite (report_connection_endpoint proto conn addr port Hfield).
  - now rewrite (hex_to_ip_eight_digits addr Haddr), Hint.
  - apply (all_chars_impl is_hex_digit); [apply hex_digit_not_colon | apply Haddr].
  - apply (all_chars_impl is_hex_digit); [apply hex_digit_not_colon | apply Hport].
Qed.

(** X14.  A line as the kernel writes it is reported with one message.
    For a line made of white space, the entry number, white space, the
    endpoint [addr:port] with an address of eight and a port of one to
    four hexadecimal digits, and a rest that is empty or begins with white
    space, [report_connection] logs exactly one message: the connection
    with the address decoded byte by byte from the right and the port as
    the value of its digits, a number from 0 to 65535. *)
Theorem table_line_is_reported (proto : protocol)
    (lead slot gap addr port rest : string) :
  all_chars Py_UNICODE_ISSPACE lead = true ->
  is_word slot ->
  gap <> "" -> all_chars Py_UNICODE_ISSPACE gap = true ->
  well_formed_address addr -> well_formed_port port ->
  field_end rest ->
  report_connection proto (table_line lead slot gap addr port rest)
  = ([connection proto
        (dotted_quad (hex_byte addr 3) (hex_byte addr 2) (hex_byte addr 1)
           (hex_byte addr 0))
        (hex_value port)], Returned tt) /\
  0 <= hex_value port <= 65535.
Proof.
  intros Hlead Hslot Hgap Hgapw Haddr Hport Hrest.
  destruct (port_value port Hport) as [Hint Hrange]. split; [|exact Hrange].
  assert (Hca : all_chars not_colon addr = true)
    by (apply (all_chars_impl is_hex_digit); [apply hex_digit_not_colon | apply Haddr]).
  assert (Hcp : all_chars not_colon port = true)
    by (apply (all_chars_impl is_hex_digit); [apply hex_digit_not_colon | apply Hport]).
  rewrite (report_connection_endpoint proto _ addr port).
  - now rewrite (hex_to_ip_eight_digits addr Haddr), Hint.
  - unfold table_line. apply table_line_field; try assumption. split.
    + destruct addr; [destruct Haddr as [Hlen _]; discriminate Hlen | discriminate].
    + change (":" ++ port) with (String ":" port).
      rewrite all_chars_app. cbn [all_chars].
      rewrite (all_chars_impl is_hex_digit not_space addr hex_digit_not_space
                 (proj2 Haddr)).
      now rewrite (all_chars_impl is_hex_digit not_space port hex_digit_not_space
                     (proj2 Hport)).
  - exact Hca.
  - exact Hcp.
Qed.

Lemma table_line_is_reported_witness :
  report_connection TCP
    "   3: 0100007F:1F90 00000000:0000 0A 00000000:00000000 00:00000000 00000000"
  = ([TcpConnection "127.0.0.1" 8080], Returned tt).
Proof.
  assert (Hword : is_word "3:") by (split; [discriminate | reflexivity]).
  assert (Hgap : " " <> "") by discriminate.
  assert (Haddr : well_formed_address "0100007F") by (split; reflexivity).
  assert (Hport : well_formed_port "1F90")
    by (split; [vm_compute; lia | reflexivity]).
  exact (proj1 (table_line_is_reported TCP "   " "3:" " " "0100007F" "1F90"
                  " 00000000:0000 0A 00000000:00000000 00:00000000 00000000"
                  eq_refl Hword Hgap eq_refl Haddr Hport eq_refl)).
Defined.

(** X15.  A bad address and a bad port are treated differently.  For a
    line whose second field is [addr:port]: when [addr] holds a character
    that cannot occur in a base-16 literal and the port is well formed,
    the line is still reported, with ["Invalid IP"] in the place of the
    address; when [port] holds such a character, [int] raises a
    [ValueError] that nothing catches, and nothing is logged for the
    line. *)
Theorem bad_address_and_bad_port (proto : protocol) (conn addr port : string) :
  nth_error (split_whitespace conn) 1 = Some (addr ++ ":" ++ port) ->
  all_chars not_colon addr = true -> all_chars not_colon port = true ->
  (all_chars literal_char addr = false -> well_formed_port port ->
     report_connection proto conn
     = ([connection proto invalid_ip (hex_value port)], Returned tt)) /\
  (all_chars literal_char port = false ->
   forall ip, hex_to_ip addr = Returned ip ->
     report_connection proto conn = ([], Raised ValueError)).
Proof.
  intros Hfield Ha Hp.
  rewrite (report_connection_endpoint proto conn addr port Hfield Ha Hp). split.
  - intros Hbad Hport. unfold hex_to_ip.
    rewrite (int16_rejects addr Hbad), (proj1 (port_value port Hport)). reflexivity.
  - intros Hbad ip Hip. now rewrite Hip, (int16_rejects port Hbad).
Qed.

Lemma bad_address_and_bad_port_witness :
  report_connection UDP "   0: 0100007G:0035 00000000:0000 07"
  = ([UdpConnection "Invalid IP" 53], Returned tt) /\
  report_connection UDP "   0: 0100007F:00z5 00000000:0000 07"
  = ([], Raised ValueError).
Proof.
  split.
  - apply (proj1 (bad_address_and_bad_port UDP
             "   0: 0100007G:0035 00000000:0000 07" "0100007G" "0035"
             eq_refl eq_refl eq_refl)).
    + reflexivity.
    + split; [vm_compute; lia | reflexivity].
  - apply (proj2 (bad_address_and_bad_port UDP
             "   0: 0100007F:00z5 00000000:0000 07" "0100007F" "00z5"
             eq_refl eq_refl eq_refl) eq_refl "127.0.0.1" eq_refl).
Defined.

Lemma split_whitespace_blank conn :
  all_chars Py_UNICODE_ISSPACE conn = true -> split_whitespace conn = [].
Proof.
  intros Hblank. unfold split_whitespace.
  rewrite <- (append_empty_r conn). now rewrite (split_whitespace_lead conn "" Hblank).
Qed.

(** X16.  A line without a second field ends the cycle.  For a line that
    is empty or holds white space only, and for a line of a single word,
    [parts[1]] raises an [IndexError] that nothing catches: nothing is
    logged for the line, and a cycle whose TCP table holds such a line
    after lines that were reported ends there, before the UDP table. *)
Theorem short_line_aborts_cycle (proto : protocol) (conn : string) :
  (all_chars Py_UNICODE_ISSPACE conn = true \/
   exists lead word rest,
     conn = lead ++ word ++ rest /\
     all_chars Py_UNICODE_ISSPACE lead = true /\ is_word word /\
     all_chars Py_UNICODE_ISSPACE rest = true) ->
  report_connection proto conn = ([], Raised IndexError) /\
  (forall tcp_file udp_file before after,
     read_connections tcp_file = (before ++ conn :: after)%list ->
     (forall c, In c before -> outcome (report_connection TCP c) = Returned tt) ->
     monitor_network_cycle tcp_file udp_file
     = (logs_of (report_connection TCP) before, Raised IndexError)).
Proof.
  intros Hshort.
  assert (Hone : nth_error (split_whitespace conn) 1 = None).
  { destruct Hshort as [Hblank | (lead & word & rest & -> & Hlead & [Hne Hword] & Hrest)].
    - now rewrite (split_whitespace_blank conn Hblank).
    - unfold split_whitespace.
      rewrite (split_whitespace_lead lead _ Hlead).
      rewrite (split_whitespace_word word "" _ Hword).
      change ("" ++ word) with word.
      assert (Hend : split_whitespace_from word rest = [word]).
      { destruct rest as [|c rest].
        - cbn. now apply flush_word_nonempty.
        - cbn [all_chars] in Hrest. apply andb_prop in Hrest as [Hc Hrest].
          cbn [split_whitespace_from]. rewrite Hc.
          fold (split_whitespace rest). rewrite (split_whitespace_blank rest Hrest).
          now rewrite (flush_word_nonempty word Hne). }
      now rewrite Hend. }
  split; [now apply report_connection_no_field|].
  intros tcp_file udp_file before after Htcp Hbefore.
  unfold monitor_network_cycle. rewrite Htcp.
  rewrite (for_each_aborts _ before conn after [] IndexError Hbefore
             (report_connection_no_field TCP conn Hone)).
  cbn [Logged.bind]. now rewrite app_nil_r.
Qed.

Lemma short_line_aborts_cycle_witness :
  monitor_network_cycle
    ["sl local_address"; "   0: 0100007F:0035 00000000:0000 0A"; "";
     "   1: 0100007F:0050 00000000:0000 0A"]
    ["sl local_address"; "   0: 00000000:0044 00000000:0000 07"]
  = ([TcpConnection "127.0.0.1" 53], Raised IndexError).
Proof.
  apply (proj2 (short_line_aborts_cycle TCP "" (or_introl eq_refl))
           ["sl local_address"; "   0: 0100007F:0035 00000000:0000 0A"; "";
            "   1: 0100007F:0050 00000000:0000 0A"]
           ["sl local_address"; "   0: 00000000:0044 00000000:0000 07"]
           ["   0: 0100007F:0035 00000000:0000 0A"]
           ["   1: 0100007F:0050 00000000:0000 0A"] eq_refl).
  intros c [<-|[]]. reflexivity.
Defined.

Lemma reportable_lines_logged proto conns :
  Forall reportable conns ->
  (forall c, In c conns -> outcome (report_connection proto c) = Returned tt) /\
  length (logs_of (report_connection proto) conns) = length conns /\
  (forall msg, In msg (logs_of (report_connection proto) conns) ->
     exists ip n, 0 <= n <= 65535 /\ msg = connection proto ip n).
Proof.
  induction 1 as [|c conns Hc _ (IH1 & IH2 & IH3)].
  - repeat split; [intros c [] | intros msg []].
  - destruct (reportable_reports proto c Hc) as (ip & n & Hn & Hrun).
    unfold logs_of in *. cbn [map concat]. rewrite Hrun. cbn [messages fst app].
    split; [|split].
    + intros c' [<-|Hin]; [now rewrite Hrun | now apply IH1].
    + cbn [length]. now rewrite IH2.
    + intros msg [<-|Hin]; [now exists ip, n | now apply IH3].
Qed.

(** X17.  A cycle over tables of well-formed lines.  When every line after
    the header line of both tables has an endpoint field of a well-formed
    address and port, the cycle ends normally and logs one message per
    such line: first a TCP message for every line of the TCP table, then
    a UDP message for every line of the UDP table, every port a number
    from 0 to 65535.  The first line of each table is never read, and a
    table without any line is a table without connections. *)
Theorem cycle_reports_every_line (tcp_file udp_file : list string) :
  Forall reportable (drop 1 tcp_file) -> Forall reportable (drop 1 udp_file) ->
  exists tcp_msgs udp_msgs,
    monitor_network_cycle tcp_file udp_file
    = ((tcp_msgs ++ udp_msgs)%list, Returned tt) /\
    length tcp_msgs = (length tcp_file - 1)%nat /\
    length udp_msgs = (length udp_file - 1)%nat /\
    (forall msg, In msg tcp_msgs ->
       exists ip n, 0 <= n <= 65535 /\ msg = TcpConnection ip n) /\
    (forall msg, In msg udp_msgs ->
       exists ip n, 0 <= n <= 65535 /\ msg = UdpConnection ip n).
Proof.
  intros Htcp Hudp.
  destruct (reportable_lines_logged TCP _ Htcp) as (Ht1 & Ht2 & Ht3).
  destruct (reportable_lines_logged UDP _ Hudp) as (Hu1 & Hu2 & Hu3).
  exists (logs_of (report_connection TCP) (drop 1 tcp_file)),
         (logs_of (report_connection UDP) (drop 1 udp_file)).
  split; [|split; [|split; [|split]]].
  - unfold monitor_network_cycle, read_connections.
    rewrite (for_each_completes _ _ Ht1), (for_each_completes _ _ Hu1). reflexivity.
  - now rewrite Ht2, length_drop.
  - now rewrite Hu2, length_drop.
  - exact Ht3.
  - exact Hu3.
Qed.

Lemma cycle_reports_every_line_witness :
  exists tcp_msgs udp_msgs,
    monitor_network_cycle
      ["sl local_address"; "   0: 0100007F:0035 00000000:0000 0A";
       "   1: 00000000:0016 00000000:0000 0A"] []
    = ((tcp_msgs ++ udp_msgs)%list, Returned tt) /\
    length tcp_msgs = 2%nat /\ length udp_msgs = 0%nat.
Proof.
  destruct (cycle_reports_every_line
              ["sl local_address"; "   0: 0100007F:0035 00000000:0000 0A";
               "   1: 00000000:0016 00000000:0000 0A"] [])
    as (tcp_msgs & udp_msgs & Hrun & Ht & Hu & _).
  - repeat constructor.
    + exists "0100007F", "0035". repeat split; try reflexivity; vm_compute; lia.
    + exists "00000000", "0016". repeat split; try reflexivity; vm_compute; lia.
  - constructor.
  - exists tcp_msgs, udp_msgs. split; [exact Hrun|]. split; [exact Ht | exact Hu].
Defined.

(** ** The user name and [main] *)

(** X18.  The user name of the log lines is never missing and never
    empty.  It is [LOGNAME] when that variable is set to a string that is
    not empty; otherwise, so also when [LOGNAME] is set to the empty
    string, it is [USER] when that is set and not empty; otherwise it is
    ["unknown_user"]. *)
Theorem username_resolution (env : gmap string string) :
  (exists user, username env = Some user /\ user <> "") /\
  (forall v, env !! "LOGNAME" = Some v -> v <> "" -> username env = Some v) /\
  (env !! "LOGNAME" = None \/ env !! "LOGNAME" = Some "" ->
   forall v, env !! "USER" = Some v -> v <> "" -> username env = Some v) /\
  (env !! "LOGNAME" = None \/ env !! "LOGNAME" = Some "" ->
   env !! "USER" = None \/ env !! "USER" = Some "" ->
   username env = Some "unknown_user").
Proof.
  unfold username, py_or.
  destruct (env !! "LOGNAME") as [[|a l]|];
    destruct (env !! "USER") as [[|b u]|]; cbn [truthy];
    (split; [eexists; split; [reflexivity | discriminate]|]);
    (split; [intros v Hv Hne; congruence|]);
    (split; [intros [Hlog|Hlog] v Hv Hne; congruence
            | intros [Hlog|Hlog] [Huser|Huser]; congruence]).
Qed.

Lemma username_resolution_witness :
  username (<["LOGNAME" := ""]> (<["USER" := "alice"]> ∅)) = Some "alice" /\
  username (<["LOGNAME" := ""]> ∅) = Some "unknown_user".
Proof.
  split.
  - apply (proj1 (proj2 (proj2 (username_resolution
             (<["LOGNAME" := ""]> (<["USER" := "alice"]> ∅))))));
      [right; vm_compute; reflexivity | vm_compute; reflexivity | discriminate].
  - apply (proj2 (proj2 (proj2 (username_resolution (<["LOGNAME" := ""]> ∅)))));
      [right; vm_compute; reflexivity | left; vm_compute; reflexivity].
Defined.


